(** * The 8254 timer driver of devices/timer.c

    A shallow embedding of the timer driver: the tick counter, the
    calibration of the busy-wait loop, the sleep entry points and the
    interrupt handler with its scheduler cadence.  Machine integers are
    integers of [Z] with their wrap-around written out; the calls into the
    rest of the kernel (thread_tick, thread_sleep, thread_awake, the mlfqs_*
    functions, outb, intr_register_ext, printf) are recorded, in order, in a
    log of events, each with the value of the tick counter at the time of
    the call. *)

From Stdlib Require Import ZArith List Bool String Lia.
Import ListNotations.
Local Open Scope Z_scope.

(** ** C integer arithmetic *)

Definition INT64_MAX : Z := 9223372036854775807.
Definition INT64_MIN : Z := -9223372036854775808.
Definition INT32_MAX : Z := 2147483647.
Definition INT32_MIN : Z := -2147483648.
Definition UINT32_MAX : Z := 4294967295.

Definition int64_range (z : Z) : Prop := INT64_MIN <= z <= INT64_MAX.
Definition int32_range (z : Z) : Prop := INT32_MIN <= z <= INT32_MAX.
Definition uint32_range (z : Z) : Prop := 0 <= z <= UINT32_MAX.

(** Conversion to int64_t, two's complement. *)
Definition wrap64 (z : Z) : Z :=
  (z + 9223372036854775808) mod 18446744073709551616 - 9223372036854775808.

(** Conversions to unsigned, uint16_t and uint8_t. *)
Definition wrap_u32 (z : Z) : Z := z mod 4294967296.
Definition wrap_u16 (z : Z) : Z := z mod 65536.
Definition wrap_u8 (z : Z) : Z := z mod 256.

(** ** Events, state and the monad of the driver *)

Inductive intr_level : Type := INTR_OFF | INTR_ON.

Definition intr_level_eqb (a b : intr_level) : bool :=
  match a, b with
  | INTR_OFF, INTR_OFF | INTR_ON, INTR_ON => true
  | _, _ => false
  end.

(** The calls that leave this file, with the arguments they are given. *)
Inductive event : Type :=
| Outb (port data : Z)
| IntrRegisterExt (vec : Z) (name : string)
| Printf (text : string) (arg : option Z)
| ThreadTick
| ThreadSleep (wake : Z)
| ThreadAwake (now : Z)
| MlfqsIncrement
| MlfqsPriority
| MlfqsLoadAvg
| MlfqsRecalc.

Definition event_eq_dec (a b : event) : {a = b} + {a <> b}.
Proof.
  decide equality; try apply Z.eq_dec; try apply string_dec.
  decide equality; apply Z.eq_dec.
Defined.

(** [ticks] and [loops_per_tick] are the two static variables of the file;
    [level] is the interrupt flag behind intr_get_level, [thread_mlfqs] the
    scheduler's flag, which this file only reads; [spins] counts the
    executions of the body of busy_wait's loop; [log] holds the events so
    far, oldest first; [seen] holds, for each event of the log, the value
    that [ticks] had when the call was made, which is what the callee gets
    if it calls timer_ticks. *)
Record state : Type := mkState {
  ticks : Z;
  loops_per_tick : Z;
  level : intr_level;
  thread_mlfqs : bool;
  spins : Z;
  log : list event;
  seen : list Z
}.

(** What stops a run: a failed ASSERT, the processor's divide error, a
    loop that never ends, or the bound that the model puts on a loop
    (shown below never to be reached). *)
Inductive halt : Type :=
| AssertionFailed (cond : string)
| DivideError
| Hang
| OutOfFuel.

Inductive result (A : Type) : Type :=
| Ok (a : A) (s : state)
| Halted (h : halt) (s : state).
Arguments Ok {A} a s.
Arguments Halted {A} h s.

Definition M (A : Type) : Type := state -> result A.

Definition ret {A} (a : A) : M A := fun s => Ok a s.

Definition bind {A B} (m : M A) (k : A -> M B) : M B :=
  fun s => match m s with
           | Ok a s' => k a s'
           | Halted h s' => Halted h s'
           end.

Notation "x <- m ;; k" := (bind m (fun x => k))
  (at level 61, m at next level, right associativity).
Notation "m ;; k" := (bind m (fun _ => k))
  (at level 61, right associativity).

Definition final_state {A} (r : result A) : state :=
  match r with Ok _ s => s | Halted _ s => s end.

Definition set_ticks (t : Z) (s : state) : state :=
  mkState t (loops_per_tick s) (level s) (thread_mlfqs s) (spins s) (log s)
          (seen s).
Definition set_loops_per_tick (n : Z) (s : state) : state :=
  mkState (ticks s) n (level s) (thread_mlfqs s) (spins s) (log s) (seen s).
Definition set_level (l : intr_level) (s : state) : state :=
  mkState (ticks s) (loops_per_tick s) l (thread_mlfqs s) (spins s) (log s)
          (seen s).
Definition set_spins (n : Z) (s : state) : state :=
  mkState (ticks s) (loops_per_tick s) (level s) (thread_mlfqs s) n (log s)
          (seen s).
Definition add_event (e : event) (s : state) : state :=
  mkState (ticks s) (loops_per_tick s) (level s) (thread_mlfqs s) (spins s)
          (log s ++ [e]) (seen s ++ [ticks s]).

Definition read_ticks : M Z := fun s => Ok (ticks s) s.
Definition write_ticks (t : Z) : M unit := fun s => Ok tt (set_ticks t s).
Definition read_loops_per_tick : M Z := fun s => Ok (loops_per_tick s) s.
Definition write_loops_per_tick (n : Z) : M unit :=
  fun s => Ok tt (set_loops_per_tick n s).
Definition read_thread_mlfqs : M bool := fun s => Ok (thread_mlfqs s) s.
Definition emit (e : event) : M unit := fun s => Ok tt (add_event e s).

(** threads/interrupt.h *)
Definition intr_get_level : M intr_level := fun s => Ok (level s) s.
Definition intr_set_level (l : intr_level) : M unit :=
  fun s => Ok tt (set_level l s).
Definition intr_disable : M intr_level :=
  fun s => Ok (level s) (set_level INTR_OFF s).

(** debug.h: ASSERT panics when its condition is false. *)
Definition ASSERT (cond : bool) (text : string) : M unit :=
  fun s => if cond then Ok tt s else Halted (AssertionFailed text) s.

(** barrier () only constrains the compiler. *)
Definition barrier : M unit := ret tt.

(** One execution of the body of busy_wait's loop. *)
Definition spin : M unit := fun s => Ok tt (set_spins (spins s + 1) s).

(** Signed 64-bit division as the processor does it: truncation toward
    zero, and a divide error for a zero divisor or INT64_MIN / -1. *)
Definition div64 (a b : Z) : M Z :=
  fun s => if (b =? 0) || ((a =? INT64_MIN) && (b =? -1))
           then Halted DivideError s
           else Ok (Z.quot a b) s.

(** The events a run has added to the log. *)
Definition events_since (s s' : state) : list event :=
  skipn (List.length (log s)) (log s').

(** The tick counts at which the events of a run were logged. *)
Definition seen_since (s s' : state) : list Z :=
  skipn (List.length (seen s)) (seen s').

Definition count_event (e : event) (l : list event) : nat :=
  count_occ event_eq_dec l e.

Definition add_events (l : list event) (s : state) : state :=
  mkState (ticks s) (loops_per_tick s) (level s) (thread_mlfqs s) (spins s)
          (log s ++ l) (seen s ++ repeat (ticks s) (List.length l)).

(** The number of calls of thread_tick so far, which is the number of runs
    of the interrupt handler. *)
Definition handler_runs (s : state) : Z :=
  Z.of_nat (count_event ThreadTick (log s)).

(** A machine on which a tick lasts [per_tick] passes of busy_wait's loop,
    each measured wait starting on a tick. *)
Definition steady_machine (per_tick : Z) : state -> Z -> nat :=
  fun _ loops => Z.to_nat (loops / per_tick).

(** The shifts [i], [i + 1], ..., [r] of them. *)
Fixpoint shift_range (i : Z) (r : nat) : list Z :=
  match r with
  | O => []
  | S r' => i :: shift_range (i + 1) r'
  end.

(** [x] has bit [k] set and no bit set above it or more than nine places
    below it. *)
Definition refined (k x : Z) : Prop :=
  Z.testbit x k = true /\
  forall n, 0 <= n -> Z.testbit x n = true -> k - 9 <= n <= k.

(** The tick counter less the number of runs of the handler, as an
    int64_t. *)
Definition epoch (s : state) : Z := wrap64 (ticks s - handler_runs s).

(** A computation that moves the tick counter only in step with the runs of
    the handler. *)
Definition tick_safe {A} (m : M A) : Prop :=
  forall s,
    let s' := final_state (m s) in
    epoch s' = epoch s /\
    handler_runs s <= handler_runs s' /\
    (int64_range (ticks s) -> int64_range (ticks s')).

(** The state the kernel starts in: static variables are zero and
    interrupts are off until the kernel turns them on. *)
Definition boot (mlfqs : bool) : state :=
  mkState 0 0 INTR_OFF mlfqs 0 [] [].

Section Timer.

(** TIMER_FREQ comes from devices/timer.h; the two #if directives at the top
    of the file refuse to compile it outside 19..1000, the range that the
    theorems below assume where they need it. *)
Variable TIMER_FREQ : Z.

(** *** timer_init *)

(** uint16_t count = (1193180 + TIMER_FREQ / 2) / TIMER_FREQ; *)
Definition pit_count : Z :=
  wrap_u16 (Z.quot (1193180 + Z.quot TIMER_FREQ 2) TIMER_FREQ).

Definition timer_init : M unit :=
  let count := pit_count in
  emit (Outb 0x43 0x34) ;;
  emit (Outb 0x40 (wrap_u8 (Z.land count 0xff))) ;;
  emit (Outb 0x40 (wrap_u8 (Z.shiftr count 8))) ;;
  emit (IntrRegisterExt 0x20 "8254 Timer"%string).

(** *** timer_ticks, timer_elapsed *)

Definition timer_ticks : M Z :=
  old_level <- intr_disable ;;
  t <- read_ticks ;;
  intr_set_level old_level ;;
  barrier ;;
  ret t.

Definition timer_elapsed (then_ : Z) : M Z :=
  t <- timer_ticks ;;
  ret (wrap64 (t - then_)).

(** *** timer_sleep

    The body in use is the sleep-wakeup one; the busy-waiting body, with its
    ASSERT on the interrupt level, is commented out in the source. *)
Definition timer_sleep (n : Z) : M unit :=
  start <- timer_ticks ;;
  emit (ThreadSleep (wrap64 (start + n))).

(** *** busy_wait

    while (loops-- > 0) barrier ();  The recursion is on a bound that
    [busy_wait] sets above the number of passes. *)
Fixpoint busy_wait_loop (fuel : nat) (loops : Z) : M unit :=
  match fuel with
  | O => fun s => Halted OutOfFuel s
  | S fuel' =>
      let loops' := wrap64 (loops - 1) in
      if 0 <? loops
      then barrier ;; spin ;; busy_wait_loop fuel' loops'
      else ret tt
  end.

Definition busy_wait (loops : Z) : M unit :=
  busy_wait_loop (S (Z.to_nat loops)) loops.

(** *** real_time_sleep and its three callers *)

Definition real_time_sleep (num denom : Z) : M unit :=
  t <- div64 (wrap64 (num * TIMER_FREQ)) denom ;;
  lvl <- intr_get_level ;;
  ASSERT (intr_level_eqb lvl INTR_ON) "intr_get_level () == INTR_ON" ;;
  if 0 <? t then
    timer_sleep t
  else
    ASSERT (Z.rem denom 1000 =? 0) "denom % 1000 == 0" ;;
    lpt <- read_loops_per_tick ;;
    a <- div64 (wrap64 (lpt * num)) 1000 ;;
    b <- div64 (wrap64 (a * TIMER_FREQ)) (Z.quot denom 1000) ;;
    busy_wait b.

(** The loop count that the sub-tick branch hands to busy_wait. *)
Definition sub_tick_loops (lpt num denom : Z) : Z :=
  Z.quot (wrap64 (Z.quot (wrap64 (lpt * num)) 1000 * TIMER_FREQ))
         (Z.quot denom 1000).

Definition timer_msleep (ms : Z) : M unit := real_time_sleep ms 1000.
Definition timer_usleep (us : Z) : M unit := real_time_sleep us (1000 * 1000).
Definition timer_nsleep (ns : Z) : M unit :=
  real_time_sleep ns (1000 * 1000 * 1000).

(** *** timer_print_stats *)

Definition timer_print_stats : M unit :=
  t <- timer_ticks ;;
  emit (Printf "Timer: ticks" (Some t)).

(** *** timer_interrupt *)

Definition timer_interrupt : M unit :=
  t <- read_ticks ;;
  write_ticks (wrap64 (t + 1)) ;;
  emit ThreadTick ;;
  mlfqs <- read_thread_mlfqs ;;
  (if mlfqs then
     emit MlfqsIncrement ;;
     t4 <- timer_ticks ;;
     if Z.rem t4 4 =? 0 then
       emit MlfqsPriority ;;
       tf <- timer_ticks ;;
       if Z.rem tf TIMER_FREQ =? 0 then
         emit MlfqsLoadAvg ;;
         emit MlfqsRecalc
       else ret tt
     else ret tt
   else ret tt) ;;
  now <- read_ticks ;;
  emit (ThreadAwake now).

(** [n] calls of the handler in a row. *)
Fixpoint run_ticks (n : nat) : M unit :=
  match n with
  | O => ret tt
  | S n' => timer_interrupt ;; run_ticks n'
  end.

(** The processor taking the timer's interrupt: with interrupts on, the
    handler runs with interrupts off and the level is restored after it;
    with interrupts off the interrupt is not delivered. *)
Definition external_interrupt : M unit :=
  lvl <- intr_get_level ;;
  match lvl with
  | INTR_ON =>
      intr_set_level INTR_OFF ;;
      timer_interrupt ;;
      intr_set_level INTR_ON
  | INTR_OFF => ret tt
  end.

Fixpoint interrupts (n : nat) : M unit :=
  match n with
  | O => ret tt
  | S n' => external_interrupt ;; interrupts n'
  end.

(** *** too_many_loops

    How long a busy wait lasts is the machine's affair: [arrivals s loops]
    is the number of timer interrupts that come in while busy_wait (loops)
    runs from state [s].  The parameter of too_many_loops is an unsigned:
    the argument is converted on entry. *)
Variable arrivals : state -> Z -> nat.

Definition arriving (loops : Z) : M nat := fun s => Ok (arrivals s loops) s.

(** while (ticks == start) barrier ();  A pass that finds the counter
    unchanged is followed by the next timer interrupt, when interrupts are
    on; with interrupts off the counter never changes and the loop does not
    end. *)
Fixpoint wait_for_tick (fuel : nat) (start : Z) : M unit :=
  match fuel with
  | O => fun s => Halted Hang s
  | S fuel' =>
      t <- read_ticks ;;
      if t =? start
      then barrier ;; external_interrupt ;; wait_for_tick fuel' start
      else ret tt
  end.

Definition too_many_loops (loops : Z) : M bool :=
  let loops := wrap_u32 loops in
  start <- read_ticks ;;
  wait_for_tick 2 start ;;
  start <- read_ticks ;;
  n <- arriving loops ;;
  busy_wait loops ;;
  interrupts n ;;
  barrier ;;
  now <- read_ticks ;;
  ret (negb (start =? now)).

(** *** timer_calibrate *)

(** while (!too_many_loops (loops_per_tick << 1)) { ... } *)
Fixpoint doubling_loop (fuel : nat) : M unit :=
  match fuel with
  | O => fun s => Halted OutOfFuel s
  | S fuel' =>
      lpt <- read_loops_per_tick ;;
      too_many <- too_many_loops (wrap_u32 (Z.shiftl lpt 1)) ;;
      if negb too_many then
        lpt <- read_loops_per_tick ;;
        write_loops_per_tick (wrap_u32 (Z.shiftl lpt 1)) ;;
        lpt <- read_loops_per_tick ;;
        ASSERT (negb (lpt =? 0)) "loops_per_tick != 0" ;;
        doubling_loop fuel'
      else ret tt
  end.

(** for (test_bit = high_bit >> 1; test_bit != high_bit >> 10;
         test_bit >>= 1) ... *)
Fixpoint refine_loop (fuel : nat) (high_bit test_bit : Z) : M unit :=
  match fuel with
  | O => fun s => Halted OutOfFuel s
  | S fuel' =>
      if negb (test_bit =? Z.shiftr high_bit 10) then
        too_many <- too_many_loops (Z.lor high_bit test_bit) ;;
        (if negb too_many then
           lpt <- read_loops_per_tick ;;
           write_loops_per_tick (Z.lor lpt test_bit)
         else ret tt) ;;
        refine_loop fuel' high_bit (Z.shiftr test_bit 1)
      else ret tt
  end.

Definition timer_calibrate : M unit :=
  lvl <- intr_get_level ;;
  ASSERT (intr_level_eqb lvl INTR_ON) "intr_get_level () == INTR_ON" ;;
  emit (Printf "Calibrating timer...  " None) ;;
  write_loops_per_tick (wrap_u32 (Z.shiftl 1 10)) ;;
  doubling_loop 32 ;;
  high_bit <- read_loops_per_tick ;;
  refine_loop 32 high_bit (Z.shiftr high_bit 1) ;;
  lpt <- read_loops_per_tick ;;
  emit (Printf "loops/s."
               (Some ((lpt * TIMER_FREQ) mod 18446744073709551616))).

(** *** The operations of the driver, as the kernel can issue them

    Besides the public functions of the file: the timer's interrupt coming
    in, and the kernel turning interrupts on or off. *)

Inductive op : Type :=
| Op_timer_init
| Op_timer_calibrate
| Op_timer_ticks
| Op_timer_elapsed (then_ : Z)
| Op_timer_sleep (n : Z)
| Op_timer_msleep (ms : Z)
| Op_timer_usleep (us : Z)
| Op_timer_nsleep (ns : Z)
| Op_timer_print_stats
| Op_interrupt
| Op_intr_set_level (l : intr_level).

Definition run_op (o : op) : M unit :=
  match o with
  | Op_timer_init => timer_init
  | Op_timer_calibrate => timer_calibrate
  | Op_timer_ticks => timer_ticks ;; ret tt
  | Op_timer_elapsed then_ => timer_elapsed then_ ;; ret tt
  | Op_timer_sleep n => timer_sleep n
  | Op_timer_msleep ms => timer_msleep ms
  | Op_timer_usleep us => timer_usleep us
  | Op_timer_nsleep ns => timer_nsleep ns
  | Op_timer_print_stats => timer_print_stats
  | Op_interrupt => external_interrupt
  | Op_intr_set_level l => intr_set_level l
  end.

Fixpoint run_ops (os : list op) : M unit :=
  match os with
  | [] => ret tt
  | o :: os' => run_op o ;; run_ops os'
  end.

(** *** What one run of the handler adds to the log *)

(** The calls made under thread_mlfqs after mlfqs_increment, at the tick
    count [t] that timer_ticks returns. *)
Definition cadence_events (t : Z) : list event :=
  if Z.rem t 4 =? 0 then
    MlfqsPriority ::
      (if Z.rem t TIMER_FREQ =? 0 then [MlfqsLoadAvg; MlfqsRecalc] else [])
  else [].

Definition feedback_events (mlfqs : bool) (t : Z) : list event :=
  if mlfqs then MlfqsIncrement :: cadence_events t else [].

Definition tick_events (mlfqs : bool) (t : Z) : list event :=
  ThreadTick :: feedback_events mlfqs t ++ [ThreadAwake t].

(** One run of the handler, in closed form. *)
Definition handler_state (s : state) : state :=
  let t := wrap64 (ticks s + 1) in
  mkState t (loops_per_tick s) (level s) (thread_mlfqs s) (spins s)
          (log s ++ tick_events (thread_mlfqs s) t)
          (seen s ++
           repeat t (List.length (tick_events (thread_mlfqs s) t))).

(** The cadence as the design document words it: two tests of the tick
    count, one beside the other. *)
Definition cadence_spec (t : Z) : list event :=
  (if t mod 4 =? 0 then [MlfqsPriority] else []) ++
  (if t mod TIMER_FREQ =? 0 then [MlfqsLoadAvg; MlfqsRecalc] else []).

(** The events of the handler's runs at the ticks [t+1 .. t+n]. *)
Fixpoint window_events (mlfqs : bool) (t : Z) (n : nat) : list event :=
  match n with
  | O => []
  | S n' => tick_events mlfqs (t + 1) ++ window_events mlfqs (t + 1) n'
  end.

(** The tick counts at which these events are logged. *)
Fixpoint window_seen (mlfqs : bool) (t : Z) (n : nat) : list Z :=
  match n with
  | O => []
  | S n' =>
      repeat (t + 1) (List.length (tick_events mlfqs (t + 1))) ++
      window_seen mlfqs (t + 1) n'
  end.

(** *** The refinement of timer_calibrate, bit by bit *)

Definition refine_step (high_bit test_bit : Z) : M unit :=
  too_many <- too_many_loops (Z.lor high_bit test_bit) ;;
  if negb too_many then
    lpt <- read_loops_per_tick ;;
    write_loops_per_tick (Z.lor lpt test_bit)
  else ret tt.

Fixpoint refine_steps (high_bit : Z) (shifts : list Z) : M unit :=
  match shifts with
  | [] => ret tt
  | k :: shifts' =>
      refine_step high_bit (Z.shiftr high_bit k) ;;
      refine_steps high_bit shifts'
  end.

End Timer.


(** A computation that leaves the part [f] of the state as it found it,
    also when it stops the kernel. *)
Definition keeps {X A : Type} (f : state -> X) (m : M A) : Prop :=
  forall s, f (final_state (m s)) = f s.

(** How a sleep that returns leaves the state [s]: as [s'], with one call
    of thread_sleep added, or with some passes of the busy-wait loop added,
    and nothing else changed. *)
Definition slept (s s' : state) : Prop :=
  (exists wake, s' = add_events [ThreadSleep wake] s) \/
  (exists passes, 0 <= passes /\ s' = set_spins (spins s + passes) s).

(** ** Facts on the integer conversions *)

Lemma wrap64_id z : int64_range z -> wrap64 z = z.
Proof.
  unfold int64_range, INT64_MIN, INT64_MAX, wrap64. intros H.
  rewrite Z.mod_small; lia.
Qed.

Lemma wrap64_range z : int64_range (wrap64 z).
Proof.
  unfold int64_range, INT64_MIN, INT64_MAX, wrap64.
  pose proof (Z.mod_pos_bound (z + 9223372036854775808) 18446744073709551616).
  lia.
Qed.

Lemma state_eta s :
  mkState (ticks s) (loops_per_tick s) (level s) (thread_mlfqs s) (spins s)
          (log s) (seen s) = s.
Proof. destruct s; reflexivity. Qed.

Lemma events_since_add l s : events_since s (add_events l s) = l.
Proof.
  unfold events_since, add_events; simpl.
  rewrite skipn_app, skipn_all, Nat.sub_diag. reflexivity.
Qed.

Section Facts.

Variable TIMER_FREQ : Z.
Variable arrivals : state -> Z -> nat.

Lemma timer_ticks_eq s : timer_ticks s = Ok (ticks s) s.
Proof. destruct s; reflexivity. Qed.

Lemma timer_elapsed_eq then_ s :
  timer_elapsed then_ s = Ok (wrap64 (ticks s - then_)) s.
Proof. unfold timer_elapsed, bind. now rewrite timer_ticks_eq. Qed.

Lemma timer_sleep_eq n s :
  timer_sleep n s = Ok tt (add_events [ThreadSleep (wrap64 (ticks s + n))] s).
Proof. unfold timer_sleep, bind. now rewrite timer_ticks_eq. Qed.

Lemma timer_init_eq s :
  timer_init TIMER_FREQ s =
  Ok tt (add_events
           [Outb 0x43 0x34;
            Outb 0x40 (wrap_u8 (Z.land (pit_count TIMER_FREQ) 0xff));
            Outb 0x40 (wrap_u8 (Z.shiftr (pit_count TIMER_FREQ) 8));
            IntrRegisterExt 0x20 "8254 Timer"] s).
Proof.
  unfold timer_init, bind, emit, add_event, add_events; simpl.
  now rewrite <- !app_assoc.
Qed.

Lemma busy_wait_loop_spec fuel : forall loops s,
  int64_range loops -> (Z.to_nat loops < fuel)%nat ->
  busy_wait_loop fuel loops s =
  Ok tt (set_spins (spins s + Z.max loops 0) s).
Proof.
  induction fuel as [|fuel IH]; intros loops s Hr Hf; [lia|].
  cbn [busy_wait_loop].
  destruct (0 <? loops) eqn:Hpos.
  - apply Z.ltb_lt in Hpos.
    unfold bind, barrier, ret, spin.
    assert (Hw : wrap64 (loops - 1) = loops - 1).
    { apply wrap64_id. unfold int64_range, INT64_MIN, INT64_MAX in *. lia. }
    rewrite Hw, IH.
    + unfold set_spins; simpl. do 2 f_equal. lia.
    + unfold int64_range, INT64_MIN, INT64_MAX in *. lia.
    + lia.
  - apply Z.ltb_ge in Hpos. unfold ret.
    replace (Z.max loops 0) with 0 by lia.
    rewrite Z.add_0_r. unfold set_spins. now rewrite state_eta.
Qed.

Lemma busy_wait_eq loops s :
  int64_range loops ->
  busy_wait loops s = Ok tt (set_spins (spins s + Z.max loops 0) s).
Proof.
  intros H. unfold busy_wait. apply busy_wait_loop_spec; [assumption|lia].
Qed.

Lemma timer_interrupt_eq s :
  timer_interrupt TIMER_FREQ s = Ok tt (handler_state TIMER_FREQ s).
Proof.
  destruct s as [t lpt lvl mlfqs sp lg sn].
  unfold timer_interrupt, handler_state, tick_events, feedback_events,
    cadence_events, timer_ticks, bind, read_ticks, write_ticks, emit,
    read_thread_mlfqs, intr_disable, intr_set_level, barrier, ret,
    add_event, set_ticks, set_level; cbn -[wrap64 Z.rem].
  destruct mlfqs; cbn -[wrap64 Z.rem].
  - destruct (Z.rem (wrap64 (t + 1)) 4 =? 0); cbn -[wrap64 Z.rem].
    + destruct (Z.rem (wrap64 (t + 1)) TIMER_FREQ =? 0); cbn -[wrap64 Z.rem];
        rewrite <- !app_assoc; reflexivity.
    + rewrite <- !app_assoc; reflexivity.
  - rewrite <- !app_assoc; reflexivity.
Qed.

Lemma run_ticks_eq n : forall s,
  int64_range (ticks s) -> ticks s + Z.of_nat n <= INT64_MAX ->
  run_ticks TIMER_FREQ n s =
  Ok tt (mkState (ticks s + Z.of_nat n) (loops_per_tick s) (level s)
           (thread_mlfqs s) (spins s)
           (log s ++ window_events TIMER_FREQ (thread_mlfqs s) (ticks s) n)
           (seen s ++ window_seen TIMER_FREQ (thread_mlfqs s) (ticks s) n)).
Proof.
  induction n as [|n IH]; intros s Hr Hn.
  - cbn [run_ticks window_events window_seen]. unfold ret.
    rewrite Z.add_0_r, !app_nil_r. now rewrite state_eta.
  - cbn [run_ticks window_events window_seen]. unfold bind.
    rewrite timer_interrupt_eq.
    assert (Hw : wrap64 (ticks s + 1) = ticks s + 1).
    { apply wrap64_id. unfold int64_range in *. lia. }
    rewrite IH; unfold handler_state;
      cbn [ticks loops_per_tick level thread_mlfqs spins log seen];
      rewrite Hw.
    + rewrite <- !app_assoc. f_equal. f_equal. lia.
    + unfold int64_range in *. lia.
    + lia.
Qed.

Lemma div_step m t : 0 < m ->
  (t + 1) / m - t / m = if (t + 1) mod m =? 0 then 1 else 0.
Proof.
  intros Hm.
  pose proof (Z.div_mod t m ltac:(lia)) as H1.
  pose proof (Z.mod_pos_bound t m Hm) as H2.
  pose proof (Z.div_mod (t + 1) m ltac:(lia)) as H3.
  pose proof (Z.mod_pos_bound (t + 1) m Hm) as H4.
  assert (Hq : (t + 1) / m - t / m = 0 \/ (t + 1) / m - t / m = 1) by nia.
  destruct ((t + 1) mod m =? 0) eqn:E.
  - apply Z.eqb_eq in E. destruct Hq as [Hq|Hq]; [|assumption]. nia.
  - apply Z.eqb_neq in E. destruct Hq as [Hq|Hq]; [assumption|]. nia.
Qed.

Lemma count_event_app e l1 l2 :
  count_event e (l1 ++ l2) = (count_event e l1 + count_event e l2)%nat.
Proof. apply count_occ_app. Qed.

(** Counting, over a window, an event that the handler emits once at the
    multiples of [m] and not otherwise. *)
Lemma count_window e m mlfqs :
  0 < m ->
  (forall t, count_event e (tick_events TIMER_FREQ mlfqs t) =
             if t mod m =? 0 then 1%nat else 0%nat) ->
  forall n t,
    Z.of_nat (count_event e (window_events TIMER_FREQ mlfqs t n)) =
    (t + Z.of_nat n) / m - t / m.
Proof.
  intros Hm He n. induction n as [|n IH]; intros t.
  - cbn [window_events]. rewrite Z.add_0_r. cbn. lia.
  - cbn [window_events]. rewrite count_event_app, He, Nat2Z.inj_add, IH.
    pose proof (div_step m t Hm) as Hs.
    replace (t + 1 + Z.of_nat n) with (t + Z.of_nat (S n)) by lia.
    destruct ((t + 1) mod m =? 0); lia.
Qed.

Lemma rem_eqb_mod a b : b <> 0 -> (Z.rem a b =? 0) = (a mod b =? 0).
Proof.
  intros Hb.
  destruct (a mod b =? 0) eqn:E.
  - apply Z.eqb_eq. apply Z.eqb_eq in E.
    apply Z.rem_divide; [assumption|]. now apply Z.mod_divide.
  - apply Z.eqb_neq. apply Z.eqb_neq in E. intros H. apply E.
    apply Z.mod_divide; [assumption|]. now apply Z.rem_divide.
Qed.

Lemma in_cadence_events_priority t :
  In MlfqsPriority (cadence_events TIMER_FREQ t) <-> t mod 4 = 0.
Proof.
  unfold cadence_events. rewrite (rem_eqb_mod t 4) by lia.
  destruct (Z.eqb_spec (t mod 4) 0); destruct (Z.rem t TIMER_FREQ =? 0);
    cbn; intuition (discriminate || lia || auto).
Qed.

(** mlfqs_load_avg is called at the ticks that both 4 and TIMER_FREQ
    divide, the second test being inside the first. *)
Lemma in_cadence_events_load_avg t :
  TIMER_FREQ <> 0 ->
  In MlfqsLoadAvg (cadence_events TIMER_FREQ t) <->
  t mod 4 = 0 /\ t mod TIMER_FREQ = 0.
Proof.
  intros HF. unfold cadence_events. rewrite !rem_eqb_mod by lia.
  destruct (Z.eqb_spec (t mod 4) 0); destruct (Z.eqb_spec (t mod TIMER_FREQ) 0);
    cbn; intuition (discriminate || lia || auto).
Qed.

(** When 4 divides TIMER_FREQ the nested tests of the handler are the two
    tests of the design document. *)
Lemma cadence_events_spec t :
  0 < TIMER_FREQ -> (4 | TIMER_FREQ) ->
  cadence_events TIMER_FREQ t = cadence_spec TIMER_FREQ t.
Proof.
  intros HF H4. unfold cadence_events, cadence_spec.
  rewrite !rem_eqb_mod by lia.
  destruct (t mod 4 =? 0) eqn:E4; [reflexivity|].
  destruct (t mod TIMER_FREQ =? 0) eqn:EF; [|reflexivity].
  exfalso. apply Z.eqb_neq in E4. apply E4.
  apply Z.eqb_eq in EF. apply Z.mod_divide; [lia|].
  apply Z.mod_divide in EF; [|lia].
  now apply Z.divide_trans with TIMER_FREQ.
Qed.

Lemma events_since_app s s' l :
  log s' = log s ++ l -> events_since s s' = l.
Proof.
  intros H. unfold events_since. rewrite H.
  rewrite skipn_app, skipn_all, Nat.sub_diag. reflexivity.
Qed.

Lemma seen_since_app s s' l :
  seen s' = seen s ++ l -> seen_since s s' = l.
Proof.
  intros H. unfold seen_since. rewrite H.
  rewrite skipn_app, skipn_all, Nat.sub_diag. reflexivity.
Qed.

Lemma count_priority_tick t :
  count_event MlfqsPriority (tick_events TIMER_FREQ true t) =
  if t mod 4 =? 0 then 1%nat else 0%nat.
Proof.
  unfold tick_events, feedback_events, cadence_events.
  rewrite (rem_eqb_mod t 4) by lia.
  destruct (t mod 4 =? 0); [|reflexivity].
  destruct (Z.rem t TIMER_FREQ =? 0); reflexivity.
Qed.

Lemma count_load_avg_tick t :
  0 < TIMER_FREQ -> (4 | TIMER_FREQ) ->
  count_event MlfqsLoadAvg (tick_events TIMER_FREQ true t) =
  if t mod TIMER_FREQ =? 0 then 1%nat else 0%nat.
Proof.
  intros HF H4. unfold tick_events, feedback_events.
  rewrite cadence_events_spec by assumption. unfold cadence_spec.
  destruct (t mod 4 =? 0); destruct (t mod TIMER_FREQ =? 0); reflexivity.
Qed.

Lemma count_recalc_tick t :
  0 < TIMER_FREQ -> (4 | TIMER_FREQ) ->
  count_event MlfqsRecalc (tick_events TIMER_FREQ true t) =
  if t mod TIMER_FREQ =? 0 then 1%nat else 0%nat.
Proof.
  intros HF H4. unfold tick_events, feedback_events.
  rewrite cadence_events_spec by assumption. unfold cadence_spec.
  destruct (t mod 4 =? 0); destruct (t mod TIMER_FREQ =? 0); reflexivity.
Qed.

Lemma in_cadence_spec_priority t :
  In MlfqsPriority (cadence_spec TIMER_FREQ t) <-> t mod 4 = 0.
Proof.
  unfold cadence_spec. rewrite in_app_iff.
  destruct (Z.eqb_spec (t mod 4) 0); destruct (Z.eqb_spec (t mod TIMER_FREQ) 0);
    cbn; intuition (discriminate || lia || auto).
Qed.

Lemma in_cadence_spec_load_avg t :
  In MlfqsLoadAvg (cadence_spec TIMER_FREQ t) <-> t mod TIMER_FREQ = 0.
Proof.
  unfold cadence_spec. rewrite in_app_iff.
  destruct (Z.eqb_spec (t mod 4) 0); destruct (Z.eqb_spec (t mod TIMER_FREQ) 0);
    cbn; intuition (discriminate || lia || auto).
Qed.

Lemma in_cadence_spec_recalc t :
  In MlfqsRecalc (cadence_spec TIMER_FREQ t) <-> t mod TIMER_FREQ = 0.
Proof.
  unfold cadence_spec. rewrite in_app_iff.
  destruct (Z.eqb_spec (t mod 4) 0); destruct (Z.eqb_spec (t mod TIMER_FREQ) 0);
    cbn; intuition (discriminate || lia || auto).
Qed.

End Facts.

(** ** The cadence of the feedback scheduler *)

(** C1 (as amended).  Under thread_mlfqs, the handler's run that brings
    the tick count to [t] calls mlfqs_priority exactly when [t mod 4 = 0],
    and over any 4 * TIMER_FREQ runs in a row it calls it TIMER_FREQ times.
    When 4 divides TIMER_FREQ, the run calls mlfqs_load_avg, followed at
    once by mlfqs_recalc, exactly when [t mod TIMER_FREQ = 0], and over any
    4 * TIMER_FREQ runs in a row it calls each of the two four times. *)
Theorem feedback_cadence (F : Z) (s : state) :
  19 <= F <= 1000 ->
  thread_mlfqs s = true ->
  int64_range (ticks s) -> ticks s + 4 * F <= INT64_MAX ->
  exists s1 s2,
    timer_interrupt F s = Ok tt s1 /\ ticks s1 = ticks s + 1 /\
    run_ticks F (Z.to_nat (4 * F)) s = Ok tt s2 /\
    ticks s2 = ticks s + 4 * F /\
    (In MlfqsPriority (events_since s s1) <-> ticks s1 mod 4 = 0) /\
    count_event MlfqsPriority (events_since s s2) = Z.to_nat F /\
    ((4 | F) ->
     events_since s s1 =
       ThreadTick :: MlfqsIncrement ::
         cadence_spec F (ticks s1) ++ [ThreadAwake (ticks s1)] /\
     (In MlfqsLoadAvg (events_since s s1) <-> ticks s1 mod F = 0) /\
     (In MlfqsRecalc (events_since s s1) <-> ticks s1 mod F = 0) /\
     count_event MlfqsLoadAvg (events_since s s2) = 4%nat /\
     count_event MlfqsRecalc (events_since s s2) = 4%nat).
Proof.
  intros HF Hm Hr Hmax.
  assert (Hw : wrap64 (ticks s + 1) = ticks s + 1).
  { apply wrap64_id. unfold int64_range in *. lia. }
  assert (He : events_since s (handler_state F s) =
               ThreadTick :: MlfqsIncrement ::
                 cadence_events F (ticks s + 1) ++ [ThreadAwake (ticks s + 1)]).
  { erewrite events_since_app by (cbn [handler_state log]; reflexivity).
    rewrite Hm, Hw. reflexivity. }
  assert (Ht : ticks (handler_state F s) = ticks s + 1) by exact Hw.
  assert (Hin : forall e,
             e <> ThreadTick -> e <> MlfqsIncrement ->
             (forall t, e <> ThreadAwake t) ->
             forall l, In e (ThreadTick :: MlfqsIncrement ::
                               l ++ [ThreadAwake (ticks s + 1)]) <-> In e l).
  { intros e H1 H2 H3 l. cbn. rewrite in_app_iff. cbn.
    specialize (H3 (ticks s + 1)). intuition congruence. }
  exists (handler_state F s). eexists.
  split; [apply timer_interrupt_eq|].
  split; [exact Ht|].
  split; [apply run_ticks_eq; [assumption|rewrite Z2Nat.id by lia; lia]|].
  cbn [ticks]. rewrite Z2Nat.id by lia. split; [reflexivity|].
  erewrite !(events_since_app s (mkState _ _ _ _ _ _ _))
    by (cbn [log]; reflexivity).
  rewrite Hm, He, !Ht.
  split; [|split].
  - rewrite Hin by discriminate. apply in_cadence_events_priority.
  - apply Nat2Z.inj.
    rewrite (count_window F MlfqsPriority 4 true)
      by (lia || apply count_priority_tick).
    replace (4 * F) with (F * 4) by lia.
    rewrite !Z2Nat.id, Z.div_add by lia. lia.
  - intros H4.
    assert (Hs : cadence_events F (ticks s + 1) = cadence_spec F (ticks s + 1))
      by (apply cadence_events_spec; [lia|assumption]).
    rewrite Hs, !Hin by discriminate.
    split; [reflexivity|].
    split; [apply in_cadence_spec_load_avg|].
    split; [apply in_cadence_spec_recalc|].
    split; apply Nat2Z.inj.
    + rewrite (count_window F MlfqsLoadAvg F true);
        [|lia|intros t; apply count_load_avg_tick; [lia|assumption]].
      rewrite !Z2Nat.id, Z.div_add by lia. lia.
    + rewrite (count_window F MlfqsRecalc F true);
        [|lia|intros t; apply count_recalc_tick; [lia|assumption]].
      rewrite !Z2Nat.id, Z.div_add by lia. lia.
Qed.

Lemma feedback_cadence_witness :
  19 <= 100 <= 1000 /\ thread_mlfqs (boot true) = true /\
  int64_range (ticks (boot true)) /\
  ticks (boot true) + 4 * 100 <= INT64_MAX /\ (4 | 100) /\
  exists s2,
    run_ticks 100 (Z.to_nat (4 * 100)) (boot true) = Ok tt s2 /\
    ticks s2 = ticks (boot true) + 4 * 100 /\
    count_event MlfqsPriority (events_since (boot true) s2) = Z.to_nat 100 /\
    count_event MlfqsLoadAvg (events_since (boot true) s2) = 4%nat /\
    count_event MlfqsRecalc (events_since (boot true) s2) = 4%nat.
Proof.
  assert (H1 : 19 <= 100 <= 1000) by lia.
  assert (H2 : thread_mlfqs (boot true) = true) by reflexivity.
  assert (H3 : int64_range (ticks (boot true)))
    by (vm_compute; split; discriminate).
  assert (H4 : ticks (boot true) + 4 * 100 <= INT64_MAX)
    by (vm_compute; discriminate).
  assert (H5 : (4 | 100)) by (exists 25; reflexivity).
  repeat (split; [assumption|]).
  destruct (feedback_cadence 100 (boot true) H1 H2 H3 H4)
    as [s1 [s2 [_ [_ [E1 [E2 [_ [E3 E4]]]]]]]].
  destruct (E4 H5) as [_ [_ [_ [E5 E6]]]].
  exists s2. repeat split; assumption.
Defined.

(** Against C1 as first stated: at 100 Hz a window of 400 ticks sees
    mlfqs_load_avg four times, not once; and at 50 Hz the handler's run at
    tick 50 does not call it, the test on TIMER_FREQ being inside the test
    on 4. *)
Lemma feedback_cadence_counterexample :
  (let w := events_since (boot true)
              (final_state (run_ticks 100 (Z.to_nat (4 * 100)) (boot true))) in
   count_event MlfqsLoadAvg w = 4%nat /\ count_event MlfqsLoadAvg w <> 1%nat)
  /\
  (let s := final_state (run_ticks 50 49 (boot true)) in
   let s' := final_state (timer_interrupt 50 s) in
   ticks s' mod 50 = 0 /\ ~ In MlfqsLoadAvg (events_since s s')).
Proof.
  split.
  - vm_compute. split; [reflexivity|discriminate].
  - vm_compute. split; [reflexivity|].
    intros H. repeat destruct H as [H|H]; try discriminate H. exact H.
Qed.

(** ** The sleep entry points *)

Section SleepFacts.

Variable TIMER_FREQ : Z.

Lemma div64_ok a b s :
  0 < b -> div64 a b s = Ok (Z.quot a b) s.
Proof.
  intros Hb. unfold div64.
  replace (b =? 0) with false by (symmetry; apply Z.eqb_neq; lia).
  replace (b =? -1) with false by (symmetry; apply Z.eqb_neq; lia).
  now rewrite andb_false_r.
Qed.

Lemma real_time_sleep_intr_off num denom s :
  level s = INTR_OFF -> 0 < denom ->
  real_time_sleep TIMER_FREQ num denom s =
  Halted (AssertionFailed "intr_get_level () == INTR_ON") s.
Proof.
  intros Hl Hd. unfold real_time_sleep, bind at 1.
  rewrite div64_ok by assumption.
  unfold bind, intr_get_level, ASSERT. now rewrite Hl.
Qed.

Lemma real_time_sleep_full_tick num denom s :
  level s = INTR_ON -> 0 < denom ->
  0 < Z.quot (wrap64 (num * TIMER_FREQ)) denom ->
  real_time_sleep TIMER_FREQ num denom s =
  timer_sleep (Z.quot (wrap64 (num * TIMER_FREQ)) denom) s.
Proof.
  intros Hl Hd Ht. unfold real_time_sleep, bind at 1.
  rewrite div64_ok by assumption.
  unfold bind at 1 2, intr_get_level, ASSERT. rewrite Hl. cbn [intr_level_eqb].
  apply Z.ltb_lt in Ht. now rewrite Ht.
Qed.

Lemma real_time_sleep_bad_denom num denom s :
  level s = INTR_ON -> 0 < denom ->
  Z.quot (wrap64 (num * TIMER_FREQ)) denom <= 0 ->
  Z.rem denom 1000 <> 0 ->
  real_time_sleep TIMER_FREQ num denom s =
  Halted (AssertionFailed "denom % 1000 == 0") s.
Proof.
  intros Hl Hd Ht Hr. unfold real_time_sleep, bind at 1.
  rewrite div64_ok by assumption.
  unfold bind at 1 2, intr_get_level, ASSERT. rewrite Hl. cbn [intr_level_eqb].
  apply Z.ltb_ge in Ht. rewrite Ht.
  apply Z.eqb_neq in Hr. unfold bind. now rewrite Hr.
Qed.

Lemma rem_1000_quot denom :
  0 < denom -> Z.rem denom 1000 = 0 -> 0 < Z.quot denom 1000.
Proof.
  intros Hd Hr.
  pose proof (Z.quot_rem' denom 1000) as H. rewrite Hr in H. lia.
Qed.

Lemma real_time_sleep_sub_tick num denom s :
  level s = INTR_ON -> 0 < denom ->
  Z.quot (wrap64 (num * TIMER_FREQ)) denom <= 0 ->
  Z.rem denom 1000 = 0 ->
  real_time_sleep TIMER_FREQ num denom s =
  busy_wait (sub_tick_loops TIMER_FREQ (loops_per_tick s) num denom) s.
Proof.
  intros Hl Hd Ht Hr. unfold real_time_sleep, bind at 1.
  rewrite div64_ok by assumption.
  unfold bind at 1 2, intr_get_level, ASSERT. rewrite Hl. cbn [intr_level_eqb].
  apply Z.ltb_ge in Ht. rewrite Ht.
  apply Z.eqb_eq in Hr as Hr'. unfold bind at 1. rewrite Hr'.
  unfold bind at 1, read_loops_per_tick.
  unfold bind at 1. rewrite div64_ok by lia.
  unfold bind at 1. rewrite div64_ok by (now apply rem_1000_quot).
  reflexivity.
Qed.

Lemma quot_neg a b : a <= 0 -> 0 < b -> Z.quot a b = - (- a / b).
Proof.
  intros Ha Hb. rewrite <- (Z.opp_involutive a) at 1.
  rewrite Z.quot_opp_l by lia. now rewrite Z.quot_div_nonneg by lia.
Qed.

Lemma quot_nonneg a b :
  0 <= a -> 0 < b ->
  0 <= Z.quot a b <= a /\ Z.quot a b * b <= a < Z.quot a b * b + b.
Proof.
  intros Ha Hb.
  rewrite Z.quot_div_nonneg by lia.
  pose proof (Z.div_mod a b ltac:(lia)).
  pose proof (Z.mod_pos_bound a b Hb).
  pose proof (Z.div_pos a b ltac:(lia) Hb).
  nia.
Qed.

Lemma quot_nonpos a b :
  a <= 0 -> 0 < b ->
  a <= Z.quot a b <= 0 /\ Z.quot a b * b - b < a <= Z.quot a b * b.
Proof.
  intros Ha Hb. rewrite quot_neg by assumption.
  pose proof (Z.div_mod (- a) b ltac:(lia)).
  pose proof (Z.mod_pos_bound (- a) b Hb).
  pose proof (Z.div_pos (- a) b ltac:(lia) Hb).
  nia.
Qed.

Lemma quot_range a b : int64_range a -> 0 < b -> int64_range (Z.quot a b).
Proof.
  unfold int64_range, INT64_MIN, INT64_MAX. intros Ha Hb.
  destruct (Z.le_gt_cases 0 a) as [H0|H0].
  - pose proof (quot_nonneg a b H0 Hb). lia.
  - pose proof (quot_nonpos a b ltac:(lia) Hb). lia.
Qed.

Lemma sub_tick_loops_no_overflow lpt num denom :
  19 <= TIMER_FREQ <= 1000 -> int64_range (lpt * num) ->
  sub_tick_loops TIMER_FREQ lpt num denom =
  Z.quot (Z.quot (lpt * num) 1000 * TIMER_FREQ) (Z.quot denom 1000).
Proof.
  intros HF Hr. unfold sub_tick_loops.
  rewrite (wrap64_id (lpt * num)) by assumption.
  rewrite wrap64_id; [reflexivity|].
  unfold int64_range, INT64_MIN, INT64_MAX in *.
  destruct (Z.le_gt_cases 0 (lpt * num)) as [H0|H0].
  - pose proof (quot_nonneg (lpt * num) 1000 H0 ltac:(lia)). nia.
  - pose proof (quot_nonpos (lpt * num) 1000 ltac:(lia) ltac:(lia)). nia.
Qed.

Lemma sub_tick_loops_sign lpt num denom :
  19 <= TIMER_FREQ <= 1000 -> int64_range (lpt * num) -> 0 <= lpt ->
  0 < Z.quot denom 1000 ->
  (0 <= num -> 0 <= sub_tick_loops TIMER_FREQ lpt num denom) /\
  (num <= 0 -> sub_tick_loops TIMER_FREQ lpt num denom <= 0).
Proof.
  intros HF Hr Hl Hd.
  rewrite sub_tick_loops_no_overflow by assumption.
  split; intros Hn.
  - assert (H0 : 0 <= lpt * num) by nia.
    pose proof (quot_nonneg (lpt * num) 1000 H0 ltac:(lia)) as H1.
    assert (H2 : 0 <= Z.quot (lpt * num) 1000 * TIMER_FREQ) by nia.
    pose proof (quot_nonneg _ _ H2 Hd). lia.
  - assert (H0 : lpt * num <= 0) by nia.
    pose proof (quot_nonpos (lpt * num) 1000 H0 ltac:(lia)) as H1.
    assert (H2 : Z.quot (lpt * num) 1000 * TIMER_FREQ <= 0) by nia.
    pose proof (quot_nonpos _ _ H2 Hd). lia.
Qed.

Lemma sub_tick_loops_range lpt num denom :
  0 < Z.quot denom 1000 ->
  int64_range (sub_tick_loops TIMER_FREQ lpt num denom).
Proof. intros Hd. apply quot_range; [apply wrap64_range|assumption]. Qed.

(** A request of less than a tick leaves, with a 32-bit loops_per_tick, no
    room for overflow in the loop count. *)
Lemma sub_tick_product_range lpt num denom :
  19 <= TIMER_FREQ <= 1000 -> uint32_range lpt ->
  0 < denom <= INT32_MAX -> Z.quot (num * TIMER_FREQ) denom = 0 ->
  int64_range (lpt * num).
Proof.
  unfold uint32_range, UINT32_MAX, INT32_MAX, int64_range, INT64_MIN,
    INT64_MAX.
  intros HF Hl Hd Hq.
  destruct (Z.le_gt_cases 0 (num * TIMER_FREQ)) as [H0|H0].
  - pose proof (quot_nonneg _ denom H0 ltac:(lia)) as H. rewrite Hq in H.
    assert (0 <= num <= 113025455) by nia. nia.
  - pose proof (quot_nonpos (num * TIMER_FREQ) denom ltac:(lia) ltac:(lia))
      as H.
    rewrite Hq in H.
    assert (-113025455 <= num <= 0) by nia. nia.
Qed.

End SleepFacts.

Lemma set_spins_same s : set_spins (spins s + 0) s = s.
Proof. rewrite Z.add_0_r. unfold set_spins. apply state_eta. Qed.

Lemma busy_wait_nonpos loops s :
  int64_range loops -> loops <= 0 -> busy_wait loops s = Ok tt s.
Proof.
  intros Hr Hl. rewrite busy_wait_eq by assumption.
  replace (Z.max loops 0) with 0 by lia. now rewrite set_spins_same.
Qed.

(** C6.  timer_sleep (n) reads the tick count c and calls thread_sleep
    once, with c + n, and makes no other call; timer_sleep (0) hands over
    the current tick itself. *)
Theorem timer_sleep_registers_wake_time (n : Z) (s : state) :
  int64_range n -> int64_range (ticks s) -> int64_range (ticks s + n) ->
  timer_ticks s = Ok (ticks s) s /\
  timer_sleep n s = Ok tt (add_events [ThreadSleep (ticks s + n)] s) /\
  events_since s (final_state (timer_sleep n s)) =
    [ThreadSleep (ticks s + n)] /\
  timer_sleep 0 s = Ok tt (add_events [ThreadSleep (ticks s)] s).
Proof.
  intros Hn Ht Hs.
  split; [apply timer_ticks_eq|].
  rewrite !timer_sleep_eq, Z.add_0_r, !wrap64_id by assumption.
  cbn [final_state]. rewrite events_since_add. auto.
Qed.

Lemma timer_sleep_registers_wake_time_witness :
  int64_range 7 /\
  int64_range (ticks (mkState 10 1024 INTR_ON false 0 [] [])) /\
  int64_range (ticks (mkState 10 1024 INTR_ON false 0 [] []) + 7) /\
  timer_sleep 7 (mkState 10 1024 INTR_ON false 0 [] []) =
  Ok tt (mkState 10 1024 INTR_ON false 0 [ThreadSleep 17] [10]).
Proof.
  assert (H1 : int64_range 7) by (vm_compute; split; discriminate).
  assert (H2 : int64_range
                 (ticks (mkState 10 1024 INTR_ON false 0 [] [])))
    by (vm_compute; split; discriminate).
  assert (H3 : int64_range
                 (ticks (mkState 10 1024 INTR_ON false 0 [] []) + 7))
    by (vm_compute; split; discriminate).
  repeat (split; [assumption|]).
  exact (proj1 (proj2 (timer_sleep_registers_wake_time 7 _ H1 H2 H3))).
Defined.

(** C2, at the input where the code departs from it.  With interrupts
    off, timer_sleep goes on to call thread_sleep, while timer_msleep,
    timer_usleep and timer_nsleep, through real_time_sleep, stop at its
    ASSERT. *)
Theorem timer_sleep_with_interrupts_off :
  let s := mkState 10 1024 INTR_OFF false 0 [] [] in
  timer_sleep 5 s = Ok tt (add_events [ThreadSleep 15] s) /\
  timer_msleep 100 5 s =
    Halted (AssertionFailed "intr_get_level () == INTR_ON") s /\
  timer_usleep 100 5 s =
    Halted (AssertionFailed "intr_get_level () == INTR_ON") s /\
  timer_nsleep 100 5 s =
    Halted (AssertionFailed "intr_get_level () == INTR_ON") s.
Proof. repeat split; reflexivity. Qed.

(** Against C7 as first stated: a negative duration stops neither
    timer_sleep nor timer_msleep. *)
Lemma negative_sleep_counterexample :
  let s := mkState 10 1024 INTR_ON false 0 [] [] in
  timer_sleep (-5) s = Ok tt (add_events [ThreadSleep 5] s) /\
  timer_msleep 100 (-5) s = Ok tt s.
Proof. split; reflexivity. Qed.

(** C7 (as amended).  No sleep entry point looks at the sign of its
    argument.  For n < 0, short of overflow, timer_sleep (n) calls
    thread_sleep with the wake time c + n, which lies before the current
    tick c; and with interrupts on, real_time_sleep (n, denom), for the
    denominators of its three callers, computes a tick count and a loop
    count that are not positive and returns without a call and without a
    pass of the busy-wait loop. *)
Theorem negative_sleep_proceeds (F n denom : Z) (s : state) :
  19 <= F <= 1000 -> n < 0 -> int64_range n ->
  int64_range (ticks s + n) ->
  level s = INTR_ON ->
  denom = 1000 \/ denom = 1000 * 1000 \/ denom = 1000 * 1000 * 1000 ->
  0 <= loops_per_tick s ->
  int64_range (n * F) -> int64_range (loops_per_tick s * n) ->
  timer_sleep n s = Ok tt (add_events [ThreadSleep (ticks s + n)] s) /\
  ticks s + n < ticks s /\
  real_time_sleep F n denom s = Ok tt s.
Proof.
  intros HF Hn Hrn Hs Hl Hd Hlpt Ho1 Ho2.
  split; [|split; [lia|]].
  - rewrite timer_sleep_eq, wrap64_id by assumption. reflexivity.
  - assert (Hd0 : 0 < denom) by lia.
    assert (Hrem : Z.rem denom 1000 = 0)
      by (destruct Hd as [->|[->| ->]]; reflexivity).
    assert (Hq : 0 < Z.quot denom 1000) by (now apply rem_1000_quot).
    rewrite real_time_sleep_sub_tick; try assumption.
    + apply busy_wait_nonpos.
      * now apply sub_tick_loops_range.
      * apply sub_tick_loops_sign; (assumption || lia).
    + rewrite wrap64_id by assumption.
      apply (quot_nonpos (n * F) denom); [nia|assumption].
Qed.

Lemma negative_sleep_proceeds_witness :
  let s := mkState 10 1024 INTR_ON false 0 [] [] in
  19 <= 100 <= 1000 /\ -5 < 0 /\ int64_range (-5) /\
  int64_range (ticks s + -5) /\ level s = INTR_ON /\
  0 <= loops_per_tick s /\
  int64_range (-5 * 100) /\ int64_range (loops_per_tick s * -5) /\
  timer_sleep (-5) s = Ok tt (add_events [ThreadSleep (ticks s + -5)] s) /\
  ticks s + -5 < ticks s /\
  real_time_sleep 100 (-5) 1000 s = Ok tt s.
Proof.
  intros s.
  assert (H1 : 19 <= 100 <= 1000) by lia.
  assert (H2 : -5 < 0) by lia.
  assert (H3 : int64_range (-5)) by (vm_compute; split; discriminate).
  assert (H4 : int64_range (ticks s + -5)) by (vm_compute; split; discriminate).
  assert (H5 : level s = INTR_ON) by reflexivity.
  assert (H6 : 1000 = 1000 \/ 1000 = 1000 * 1000 \/ 1000 = 1000 * 1000 * 1000)
    by (left; reflexivity).
  assert (H7 : 0 <= loops_per_tick s) by (vm_compute; discriminate).
  assert (H8 : int64_range (-5 * 100)) by (vm_compute; split; discriminate).
  assert (H9 : int64_range (loops_per_tick s * -5))
    by (vm_compute; split; discriminate).
  repeat (split; [assumption|]).
  exact (negative_sleep_proceeds 100 (-5) 1000 s H1 H2 H3 H4 H5 H6 H7 H8 H9).
Defined.

(** C10.  busy_wait returns for every int64_t argument, after exactly
    max (loops, 0) passes of its loop: none for an argument that is zero or
    negative, so that the sub-tick branch of real_time_sleep, when the loop
    count it computes is not positive, returns with the state as it found
    it. *)
Theorem busy_wait_iterations (loops : Z) (s : state) :
  int64_range loops ->
  busy_wait loops s = Ok tt (set_spins (spins s + Z.max loops 0) s) /\
  (loops <= 0 -> busy_wait loops s = Ok tt s) /\
  (forall F num denom,
      level s = INTR_ON -> 0 < denom -> Z.rem denom 1000 = 0 ->
      Z.quot (wrap64 (num * F)) denom <= 0 ->
      sub_tick_loops F (loops_per_tick s) num denom = loops ->
      loops <= 0 ->
      real_time_sleep F num denom s = Ok tt s).
Proof.
  intros Hr. split; [now apply busy_wait_eq|]. split.
  - intros Hl. now apply busy_wait_nonpos.
  - intros F num denom Hl Hd Hrem Ht Hloops Hneg.
    rewrite real_time_sleep_sub_tick by assumption.
    rewrite Hloops. now apply busy_wait_nonpos.
Qed.

Lemma busy_wait_iterations_witness :
  let s := mkState 10 1024 INTR_ON false 0 [] [] in
  int64_range 300 /\ int64_range (-500) /\
  busy_wait 300 s = Ok tt (set_spins (spins s + Z.max 300 0) s) /\
  busy_wait (-500) s = Ok tt s /\
  real_time_sleep 100 (-5) 1000 s = Ok tt s.
Proof.
  intros s.
  assert (H1 : int64_range 300) by (vm_compute; split; discriminate).
  assert (H2 : int64_range (-500)) by (vm_compute; split; discriminate).
  repeat (split; [assumption|]).
  split; [exact (proj1 (busy_wait_iterations 300 s H1))|].
  destruct (busy_wait_iterations (-500) s H2) as [_ [Hb Hs]].
  split.
  - apply Hb. lia.
  - apply (Hs 100 (-5) 1000); try reflexivity; try lia.
Defined.

(** C4.  With interrupts on and no overflow in num * TIMER_FREQ,
    real_time_sleep (num, denom) takes t = num * TIMER_FREQ / denom, the
    quotient truncated toward zero.  For t > 0 it is timer_sleep (t).  For
    t = 0 it stops at the ASSERT when 1000 does not divide denom, and
    otherwise runs busy_wait on
    loops_per_tick * num / 1000 * TIMER_FREQ / (denom / 1000), a count that
    no step of the computation overflows and that, for num >= 0, is the
    number of passes of the loop.  At 100 Hz, real_time_sleep (1, 1000) is
    that busy wait, of at least 100 passes once loops_per_tick has reached
    1000. *)
Theorem real_time_sleep_paths (F num denom : Z) (s : state) :
  19 <= F <= 1000 ->
  int64_range num -> int32_range denom -> 0 < denom ->
  uint32_range (loops_per_tick s) ->
  level s = INTR_ON ->
  int64_range (num * F) ->
  let t := Z.quot (num * F) denom in
  let loops :=
    Z.quot (Z.quot (loops_per_tick s * num) 1000 * F) (Z.quot denom 1000) in
  (0 < t ->
   real_time_sleep F num denom s = timer_sleep t s /\
   timer_sleep t s = Ok tt (add_events [ThreadSleep (wrap64 (ticks s + t))] s))
  /\
  (t = 0 -> Z.rem denom 1000 <> 0 ->
   real_time_sleep F num denom s =
   Halted (AssertionFailed "denom % 1000 == 0") s)
  /\
  (t = 0 -> Z.rem denom 1000 = 0 ->
   real_time_sleep F num denom s = busy_wait loops s /\
   busy_wait loops s = Ok tt (set_spins (spins s + Z.max loops 0) s) /\
   (0 <= num -> Z.max loops 0 = loops))
  /\
  (F = 100 ->
   Z.quot (1 * F) 1000 = 0 /\
   real_time_sleep F 1 1000 s =
     busy_wait (Z.quot (Z.quot (loops_per_tick s * 1) 1000 * 100) 1) s /\
   (1000 <= loops_per_tick s ->
    exists k, 100 <= k /\
      real_time_sleep F 1 1000 s = Ok tt (set_spins (spins s + k) s))).
Proof.
  intros HF Hnum Hd32 Hd0 Hlpt Hl Ho t loops.
  assert (Hd : 0 < denom <= INT32_MAX) by (unfold int32_range in Hd32; lia).
  assert (Hw : wrap64 (num * F) = num * F) by (now apply wrap64_id).
  assert (Hsub : forall n d,
             0 < d <= INT32_MAX -> Z.quot (n * F) d = 0 -> Z.rem d 1000 = 0 ->
             int64_range (n * F) ->
             let l := Z.quot (Z.quot (loops_per_tick s * n) 1000 * F)
                             (Z.quot d 1000) in
             real_time_sleep F n d s = busy_wait l s /\
             busy_wait l s = Ok tt (set_spins (spins s + Z.max l 0) s) /\
             (0 <= n -> 0 <= l)).
  { intros n d Hd' Hq Hrem Ho' l.
    assert (Hp : int64_range (loops_per_tick s * n))
      by (now apply (sub_tick_product_range F _ n d)).
    assert (Hq' : 0 < Z.quot d 1000) by (apply rem_1000_quot; lia).
    assert (Hl' : sub_tick_loops F (loops_per_tick s) n d = l)
      by (now apply sub_tick_loops_no_overflow).
    assert (Hr : int64_range l)
      by (rewrite <- Hl'; now apply sub_tick_loops_range).
    split; [|split].
    - rewrite real_time_sleep_sub_tick; try assumption; try lia.
      + now rewrite Hl'.
      + rewrite wrap64_id by assumption. lia.
    - now apply busy_wait_eq.
    - intros Hn. rewrite <- Hl'.
      apply sub_tick_loops_sign; try assumption.
      unfold uint32_range in Hlpt. lia. }
  split; [|split; [|split]].
  - intros Ht. split.
    + unfold t in *. rewrite <- Hw.
      apply real_time_sleep_full_tick; try assumption; try lia.
      now rewrite Hw.
    + apply timer_sleep_eq.
  - intros Ht Hrem. apply real_time_sleep_bad_denom; try assumption; try lia.
    rewrite Hw. fold t. lia.
  - intros Ht Hrem.
    destruct (Hsub num denom Hd Ht Hrem Ho) as [H1 [H2 H3]].
    split; [exact H1|]. split; [exact H2|].
    intros Hn. specialize (H3 Hn). fold loops in H3. lia.
  - intros ->.
    assert (Hq : Z.quot (1 * 100) 1000 = 0) by reflexivity.
    assert (Hd1 : 0 < 1000 <= INT32_MAX) by (unfold INT32_MAX; lia).
    assert (Ho1 : int64_range (1 * 100)) by (vm_compute; split; discriminate).
    destruct (Hsub 1 1000 Hd1 Hq eq_refl Ho1) as [H1 [H2 H3]].
    change (Z.quot 1000 1000) with 1 in *.
    split; [exact Hq|]. split; [exact H1|].
    intros Hbig. rewrite H1, H2.
    eexists. split; [|reflexivity].
    rewrite Z.mul_1_r, Z.quot_1_r.
    pose proof (quot_nonneg (loops_per_tick s) 1000 ltac:(lia) ltac:(lia)).
    lia.
Qed.

Lemma real_time_sleep_paths_witness :
  let s := mkState 10 2000 INTR_ON false 0 [] [] in
  19 <= 100 <= 1000 /\ int64_range 1 /\ int32_range 1000 /\ 0 < 1000 /\
  uint32_range (loops_per_tick s) /\ level s = INTR_ON /\
  int64_range (1 * 100) /\
  Z.quot (1 * 100) 1000 = 0 /\ Z.rem 1000 1000 = 0 /\
  real_time_sleep 100 1 1000 s =
    busy_wait (Z.quot (Z.quot (loops_per_tick s * 1) 1000 * 100)
                 (Z.quot 1000 1000)) s /\
  real_time_sleep 100 1 1000 s = Ok tt (set_spins 200 s).
Proof.
  intros s.
  assert (H1 : 19 <= 100 <= 1000) by lia.
  assert (H2 : int64_range 1) by (vm_compute; split; discriminate).
  assert (H3 : int32_range 1000) by (vm_compute; split; discriminate).
  assert (H3' : 0 < 1000) by reflexivity.
  assert (H4 : uint32_range (loops_per_tick s))
    by (vm_compute; split; discriminate).
  assert (H5 : level s = INTR_ON) by reflexivity.
  assert (H6 : int64_range (1 * 100)) by (vm_compute; split; discriminate).
  assert (H7 : Z.quot (1 * 100) 1000 = 0) by reflexivity.
  assert (H8 : Z.rem 1000 1000 = 0) by reflexivity.
  repeat (split; [assumption|]).
  destruct (real_time_sleep_paths 100 1 1000 s H1 H2 H3 H3' H4 H5 H6)
    as [_ [_ [Hb _]]].
  destruct (Hb H7 H8) as [Hb1 [Hb2 _]].
  split; [exact Hb1|].
  rewrite Hb1, Hb2. reflexivity.
Defined.

(** The three ways through real_time_sleep at 100 Hz, with
    loops_per_tick at 2000: a second is a sleep of 100 ticks, a
    millisecond is a busy wait of 200 passes, and a denominator that 1000
    does not divide stops at the ASSERT of the sub-tick branch. *)
Example real_time_sleep_one_second :
  real_time_sleep 100 1000 1000 (mkState 10 2000 INTR_ON false 0 [] []) =
  Ok tt (mkState 10 2000 INTR_ON false 0 [ThreadSleep 110] [10]).
Proof. reflexivity. Qed.

Example real_time_sleep_one_millisecond :
  real_time_sleep 100 1 1000 (mkState 10 2000 INTR_ON false 0 [] []) =
  Ok tt (mkState 10 2000 INTR_ON false 200 [] []).
Proof. reflexivity. Qed.

Example real_time_sleep_half_second_unit :
  real_time_sleep 100 1 500 (mkState 10 2000 INTR_ON false 0 [] []) =
  Halted (AssertionFailed "denom % 1000 == 0")
         (mkState 10 2000 INTR_ON false 0 [] []).
Proof. reflexivity. Qed.

(** ** The tick counter *)

Lemma wrap64_congr a b k :
  a = b + 18446744073709551616 * k -> wrap64 a = wrap64 b.
Proof.
  intros ->. unfold wrap64. f_equal.
  replace (b + 18446744073709551616 * k + 9223372036854775808)
    with (b + 9223372036854775808 + k * 18446744073709551616) by lia.
  apply Z_mod_plus_full.
Qed.

Lemma wrap64_eq z : exists k, wrap64 z = z + 18446744073709551616 * k.
Proof.
  unfold wrap64.
  exists (- ((z + 9223372036854775808) / 18446744073709551616)).
  pose proof (Z.div_mod (z + 9223372036854775808) 18446744073709551616
                ltac:(lia)).
  lia.
Qed.

Lemma epoch_step t n : wrap64 (wrap64 (t + 1) - (n + 1)) = wrap64 (t - n).
Proof.
  destruct (wrap64_eq (t + 1)) as [k Hk]. rewrite Hk.
  apply wrap64_congr with k. lia.
Qed.

(** With the epoch at zero, the counter is the number of runs of the
    handler, as an int64_t. *)
Lemma epoch_zero s :
  epoch s = 0 -> int64_range (ticks s) -> ticks s = wrap64 (handler_runs s).
Proof.
  unfold epoch. intros He Hr.
  destruct (wrap64_eq (ticks s - handler_runs s)) as [k Hk].
  rewrite He in Hk.
  rewrite <- (wrap64_id (ticks s)) at 1 by assumption.
  apply wrap64_congr with (- k). lia.
Qed.

Lemma handler_runs_add_events l s :
  handler_runs (add_events l s) =
  handler_runs s + Z.of_nat (count_event ThreadTick l).
Proof.
  unfold handler_runs, add_events; cbn [log].
  rewrite count_event_app. lia.
Qed.

Lemma tick_safe_ret A (a : A) : tick_safe (ret a).
Proof. intros s; cbn. split; [reflexivity|]. split; [lia|auto]. Qed.

Lemma tick_safe_bind A B (m : M A) (k : A -> M B) :
  tick_safe m -> (forall a, tick_safe (k a)) -> tick_safe (bind m k).
Proof.
  intros Hm Hk s. unfold bind. specialize (Hm s). cbv zeta in Hm.
  destruct (m s) as [a s1|h s1]; cbn [final_state] in *.
  - specialize (Hk a s1). cbv zeta in Hk.
    destruct Hm as [E1 [R1 I1]], Hk as [E2 [R2 I2]].
    split; [congruence|]. split; [lia|auto].
  - exact Hm.
Qed.

(** A step that leaves the counter and the count of thread_tick calls as
    they are. *)
Lemma tick_safe_frame A (m : M A) :
  (forall s, ticks (final_state (m s)) = ticks s /\
             handler_runs (final_state (m s)) = handler_runs s) ->
  tick_safe m.
Proof.
  intros H s. destruct (H s) as [Ht Hr]. cbv zeta. unfold epoch.
  rewrite Ht, Hr. split; [reflexivity|]. split; [lia|auto].
Qed.

Lemma tick_safe_read_ticks : tick_safe read_ticks.
Proof. apply tick_safe_frame; intros s; split; reflexivity. Qed.

Lemma tick_safe_read_loops_per_tick : tick_safe read_loops_per_tick.
Proof. apply tick_safe_frame; intros s; split; reflexivity. Qed.

Lemma tick_safe_write_loops_per_tick n : tick_safe (write_loops_per_tick n).
Proof. apply tick_safe_frame; intros s; split; reflexivity. Qed.

Lemma tick_safe_intr_get_level : tick_safe intr_get_level.
Proof. apply tick_safe_frame; intros s; split; reflexivity. Qed.

Lemma tick_safe_intr_set_level l : tick_safe (intr_set_level l).
Proof. apply tick_safe_frame; intros s; split; reflexivity. Qed.

Lemma tick_safe_intr_disable : tick_safe intr_disable.
Proof. apply tick_safe_frame; intros s; split; reflexivity. Qed.

Lemma tick_safe_ASSERT c t : tick_safe (ASSERT c t).
Proof.
  apply tick_safe_frame; intros s; unfold ASSERT; destruct c; split;
    reflexivity.
Qed.

Lemma tick_safe_barrier : tick_safe barrier.
Proof. apply tick_safe_ret. Qed.

Lemma tick_safe_spin : tick_safe spin.
Proof. apply tick_safe_frame; intros s; split; reflexivity. Qed.

Lemma tick_safe_div64 a b : tick_safe (div64 a b).
Proof.
  apply tick_safe_frame; intros s; unfold div64.
  destruct ((b =? 0) || (a =? INT64_MIN) && (b =? -1)); split; reflexivity.
Qed.

Lemma tick_safe_halted A h : tick_safe (fun s => @Halted A h s).
Proof. apply tick_safe_frame; intros s; split; reflexivity. Qed.

Lemma tick_safe_emit e : e <> ThreadTick -> tick_safe (emit e).
Proof.
  intros He. apply tick_safe_frame; intros s; split; [reflexivity|].
  unfold emit; cbn [final_state].
  change (add_event e s) with (add_events [e] s).
  rewrite handler_runs_add_events. unfold count_event; cbn.
  destruct (event_eq_dec e ThreadTick); [contradiction|]. cbn. lia.
Qed.

Create HintDb tick_safe.
#[local] Hint Resolve tick_safe_ret tick_safe_read_ticks
  tick_safe_read_loops_per_tick tick_safe_write_loops_per_tick
  tick_safe_intr_get_level tick_safe_intr_set_level tick_safe_intr_disable
  tick_safe_ASSERT tick_safe_barrier tick_safe_spin tick_safe_div64
  tick_safe_halted : tick_safe.

Ltac tick_safe_emit :=
  apply tick_safe_emit; discriminate.

(** Takes a computation apart along its binds and branches. *)
Ltac tick_safe_steps :=
  repeat first
    [ apply tick_safe_bind; [|intros ?]
    | match goal with
      | |- tick_safe (if ?c then _ else _) => destruct c
      | |- tick_safe (match ?l with INTR_OFF => _ | INTR_ON => _ end) =>
          destruct l
      end
    | tick_safe_emit
    | solve [auto with tick_safe] ].

Section TickFacts.

Variable TIMER_FREQ : Z.
Variable arrivals : state -> Z -> nat.

Lemma tick_safe_timer_ticks : tick_safe timer_ticks.
Proof. unfold timer_ticks. tick_safe_steps. Qed.

Lemma tick_safe_timer_interrupt : tick_safe (timer_interrupt TIMER_FREQ).
Proof.
  intros s. rewrite timer_interrupt_eq. cbv zeta. cbn [final_state].
  assert (Hruns : handler_runs (handler_state TIMER_FREQ s) =
                  handler_runs s + 1).
  { unfold handler_runs, handler_state; cbn [log].
    rewrite count_event_app, Nat2Z.inj_add. f_equal.
    unfold tick_events, feedback_events, cadence_events.
    destruct (thread_mlfqs s); [|reflexivity].
    destruct (Z.rem _ 4 =? 0); [|reflexivity].
    destruct (Z.rem _ TIMER_FREQ =? 0); reflexivity. }
  unfold epoch. rewrite Hruns. cbn [handler_state ticks].
  split; [apply epoch_step|]. split; [lia|].
  intros _. apply wrap64_range.
Qed.

Lemma tick_safe_timer_elapsed then_ : tick_safe (timer_elapsed then_).
Proof.
  unfold timer_elapsed. apply tick_safe_bind; [apply tick_safe_timer_ticks|].
  intros t. apply tick_safe_ret.
Qed.

Lemma tick_safe_timer_sleep n : tick_safe (timer_sleep n).
Proof.
  unfold timer_sleep. apply tick_safe_bind; [apply tick_safe_timer_ticks|].
  intros t. tick_safe_emit.
Qed.

Lemma tick_safe_timer_init : tick_safe (timer_init TIMER_FREQ).
Proof. unfold timer_init. cbv zeta. tick_safe_steps. Qed.

Lemma tick_safe_busy_wait_loop fuel :
  forall loops, tick_safe (busy_wait_loop fuel loops).
Proof.
  induction fuel as [|fuel IH]; intros loops; cbn [busy_wait_loop].
  - apply tick_safe_halted.
  - cbv zeta. destruct (0 <? loops); [|apply tick_safe_ret].
    apply tick_safe_bind; [apply tick_safe_barrier|intros _].
    apply tick_safe_bind; [apply tick_safe_spin|intros _]. apply IH.
Qed.

Lemma tick_safe_busy_wait loops : tick_safe (busy_wait loops).
Proof. apply tick_safe_busy_wait_loop. Qed.

Lemma tick_safe_real_time_sleep num denom :
  tick_safe (real_time_sleep TIMER_FREQ num denom).
Proof.
  unfold real_time_sleep.
  apply tick_safe_bind; [apply tick_safe_div64|intros t].
  apply tick_safe_bind; [apply tick_safe_intr_get_level|intros lvl].
  apply tick_safe_bind; [apply tick_safe_ASSERT|intros _].
  destruct (0 <? t); [apply tick_safe_timer_sleep|].
  apply tick_safe_bind; [apply tick_safe_ASSERT|intros _].
  apply tick_safe_bind; [apply tick_safe_read_loops_per_tick|intros lpt].
  apply tick_safe_bind; [apply tick_safe_div64|intros a].
  apply tick_safe_bind; [apply tick_safe_div64|intros b].
  apply tick_safe_busy_wait.
Qed.

Lemma tick_safe_timer_print_stats : tick_safe timer_print_stats.
Proof.
  unfold timer_print_stats.
  apply tick_safe_bind; [apply tick_safe_timer_ticks|intros t].
  tick_safe_emit.
Qed.

Lemma tick_safe_external_interrupt :
  tick_safe (external_interrupt TIMER_FREQ).
Proof.
  unfold external_interrupt.
  apply tick_safe_bind; [apply tick_safe_intr_get_level|intros lvl].
  destruct lvl; [apply tick_safe_ret|].
  apply tick_safe_bind; [apply tick_safe_intr_set_level|intros _].
  apply tick_safe_bind; [apply tick_safe_timer_interrupt|intros _].
  apply tick_safe_intr_set_level.
Qed.

Lemma tick_safe_interrupts n : tick_safe (interrupts TIMER_FREQ n).
Proof.
  induction n as [|n IH]; cbn [interrupts]; [apply tick_safe_ret|].
  apply tick_safe_bind; [apply tick_safe_external_interrupt|intros _].
  exact IH.
Qed.

Lemma tick_safe_wait_for_tick fuel start :
  tick_safe (wait_for_tick TIMER_FREQ fuel start).
Proof.
  induction fuel as [|fuel IH]; cbn [wait_for_tick].
  - apply tick_safe_halted.
  - apply tick_safe_bind; [apply tick_safe_read_ticks|intros t].
    destruct (t =? start); [|apply tick_safe_ret].
    apply tick_safe_bind; [apply tick_safe_barrier|intros _].
    apply tick_safe_bind; [apply tick_safe_external_interrupt|intros _].
    exact IH.
Qed.

Lemma tick_safe_arriving loops : tick_safe (arriving arrivals loops).
Proof. apply tick_safe_frame; intros s; split; reflexivity. Qed.

Lemma tick_safe_too_many_loops loops :
  tick_safe (too_many_loops TIMER_FREQ arrivals loops).
Proof.
  unfold too_many_loops.
  apply tick_safe_bind; [apply tick_safe_read_ticks|intros start0].
  apply tick_safe_bind; [apply tick_safe_wait_for_tick|intros _].
  apply tick_safe_bind; [apply tick_safe_read_ticks|intros start].
  apply tick_safe_bind; [apply tick_safe_arriving|intros n].
  apply tick_safe_bind; [apply tick_safe_busy_wait|intros _].
  apply tick_safe_bind; [apply tick_safe_interrupts|intros _].
  apply tick_safe_bind; [apply tick_safe_barrier|intros _].
  apply tick_safe_bind; [apply tick_safe_read_ticks|intros now].
  apply tick_safe_ret.
Qed.

Lemma tick_safe_doubling_loop fuel :
  tick_safe (doubling_loop TIMER_FREQ arrivals fuel).
Proof.
  induction fuel as [|fuel IH]; cbn [doubling_loop].
  - apply tick_safe_halted.
  - apply tick_safe_bind; [apply tick_safe_read_loops_per_tick|intros lpt].
    apply tick_safe_bind; [apply tick_safe_too_many_loops|intros b].
    destruct (negb b); [|apply tick_safe_ret].
    apply tick_safe_bind; [apply tick_safe_read_loops_per_tick|intros l1].
    apply tick_safe_bind; [apply tick_safe_write_loops_per_tick|intros _].
    apply tick_safe_bind; [apply tick_safe_read_loops_per_tick|intros l2].
    apply tick_safe_bind; [apply tick_safe_ASSERT|intros _].
    exact IH.
Qed.

Lemma tick_safe_refine_loop fuel high_bit :
  forall test_bit,
    tick_safe (refine_loop TIMER_FREQ arrivals fuel high_bit test_bit).
Proof.
  induction fuel as [|fuel IH]; intros test_bit; cbn [refine_loop].
  - apply tick_safe_halted.
  - destruct (negb (test_bit =? Z.shiftr high_bit 10));
      [|apply tick_safe_ret].
    apply tick_safe_bind; [apply tick_safe_too_many_loops|intros b].
    apply tick_safe_bind; [|intros _; apply IH].
    destruct (negb b); [|apply tick_safe_ret].
    apply tick_safe_bind; [apply tick_safe_read_loops_per_tick|intros l1].
    apply tick_safe_write_loops_per_tick.
Qed.

Lemma tick_safe_timer_calibrate :
  tick_safe (timer_calibrate TIMER_FREQ arrivals).
Proof.
  unfold timer_calibrate.
  apply tick_safe_bind; [apply tick_safe_intr_get_level|intros lvl].
  apply tick_safe_bind; [apply tick_safe_ASSERT|intros _].
  apply tick_safe_bind; [tick_safe_emit|intros _].
  apply tick_safe_bind; [apply tick_safe_write_loops_per_tick|intros _].
  apply tick_safe_bind; [apply tick_safe_doubling_loop|intros _].
  apply tick_safe_bind; [apply tick_safe_read_loops_per_tick|intros hb].
  apply tick_safe_bind; [apply tick_safe_refine_loop|intros _].
  apply tick_safe_bind; [apply tick_safe_read_loops_per_tick|intros lpt].
  tick_safe_emit.
Qed.

Lemma tick_safe_run_op o : tick_safe (run_op TIMER_FREQ arrivals o).
Proof.
  destruct o; cbn [run_op].
  - apply tick_safe_timer_init.
  - apply tick_safe_timer_calibrate.
  - apply tick_safe_bind; [apply tick_safe_timer_ticks|intros _].
    apply tick_safe_ret.
  - apply tick_safe_bind; [apply tick_safe_timer_elapsed|intros _].
    apply tick_safe_ret.
  - apply tick_safe_timer_sleep.
  - apply tick_safe_real_time_sleep.
  - apply tick_safe_real_time_sleep.
  - apply tick_safe_real_time_sleep.
  - apply tick_safe_timer_print_stats.
  - apply tick_safe_external_interrupt.
  - apply tick_safe_intr_set_level.
Qed.

Lemma tick_safe_run_ops os : tick_safe (run_ops TIMER_FREQ arrivals os).
Proof.
  induction os as [|o os IH]; cbn [run_ops]; [apply tick_safe_ret|].
  apply tick_safe_bind; [apply tick_safe_run_op|intros _; exact IH].
Qed.

Lemma run_ops_app os1 os2 s :
  final_state (run_ops TIMER_FREQ arrivals (os1 ++ os2) s) =
  match run_ops TIMER_FREQ arrivals os1 s with
  | Ok _ s1 => final_state (run_ops TIMER_FREQ arrivals os2 s1)
  | Halted _ s1 => s1
  end.
Proof.
  revert s. induction os1 as [|o os1 IH]; intros s; [reflexivity|].
  cbn [app run_ops]. unfold bind.
  destruct (run_op TIMER_FREQ arrivals o s) as [[] s1|h s1];
    [apply IH|reflexivity].
Qed.

(** Whatever a computation does, the counter moves by the number of runs of
    the handler in it. *)
Lemma tick_safe_delta A (m : M A) s :
  tick_safe m -> int64_range (ticks s) ->
  let s' := final_state (m s) in
  ticks s' = wrap64 (ticks s + (handler_runs s' - handler_runs s)) /\
  handler_runs s <= handler_runs s'.
Proof.
  intros Hm Hr. destruct (Hm s) as [He [Hle Hrange]]. cbv zeta.
  split; [|assumption].
  specialize (Hrange Hr). unfold epoch in He.
  set (s' := final_state (m s)) in *.
  destruct (wrap64_eq (ticks s' - handler_runs s')) as [k1 H1].
  destruct (wrap64_eq (ticks s - handler_runs s)) as [k2 H2].
  rewrite <- (wrap64_id (ticks s')) at 1 by assumption.
  apply wrap64_congr with (k2 - k1). lia.
Qed.

Lemma boot_run_ops mlfqs os :
  let s := final_state (run_ops TIMER_FREQ arrivals os (boot mlfqs)) in
  ticks s = wrap64 (handler_runs s) /\ 0 <= handler_runs s.
Proof.
  cbv zeta.
  destruct (tick_safe_run_ops os (boot mlfqs)) as [He [Hle Hr]].
  split.
  - apply epoch_zero.
    + rewrite He. reflexivity.
    + apply Hr. vm_compute. split; discriminate.
  - unfold handler_runs. lia.
Qed.

Lemma run_ops_prefix os1 os2 s :
  handler_runs (final_state (run_ops TIMER_FREQ arrivals os1 s)) <=
  handler_runs (final_state (run_ops TIMER_FREQ arrivals (os1 ++ os2) s)).
Proof.
  rewrite run_ops_app.
  destruct (run_ops TIMER_FREQ arrivals os1 s) as [[] s1|h s1];
    cbn [final_state]; [|lia].
  apply (tick_safe_run_ops os2 s1).
Qed.

End TickFacts.

(** C5.  A run of the handler, short of the counter's overflow: the
    counter goes up by one; thread_tick is called, then, under
    thread_mlfqs only, mlfqs_increment and the calls of the cadence, then
    thread_awake with the counter's new value; nothing else of the state
    changes.  The increment comes before the call of thread_tick: the
    first call of the run is thread_tick and the counter is already at its
    new value when it is made, as it is at every later call of the run.
    And the counter has no other writer: over any operation of the driver
    it moves by the number of runs of the handler. *)
Theorem timer_interrupt_order
    (F : Z) (arrivals : state -> Z -> nat) (s : state) :
  int64_range (ticks s) -> ticks s < INT64_MAX ->
  let t := ticks s + 1 in
  (exists s',
     timer_interrupt F s = Ok tt s' /\
     ticks s' = t /\
     events_since s s' =
       ThreadTick ::
         feedback_events F (thread_mlfqs s) t ++ [ThreadAwake t] /\
     (thread_mlfqs s = false ->
      events_since s s' = [ThreadTick; ThreadAwake t]) /\
     (thread_mlfqs s = true ->
      events_since s s' =
        ThreadTick :: MlfqsIncrement ::
          cadence_events F t ++ [ThreadAwake t]) /\
     loops_per_tick s' = loops_per_tick s /\ level s' = level s /\
     thread_mlfqs s' = thread_mlfqs s /\ spins s' = spins s /\
     hd_error (combine (events_since s s') (seen_since s s')) =
       Some (ThreadTick, t) /\
     seen_since s s' = repeat t (List.length (events_since s s'))) /\
  (forall o s0,
     int64_range (ticks s0) ->
     let s1 := final_state (run_op F arrivals o s0) in
     ticks s1 = wrap64 (ticks s0 + (handler_runs s1 - handler_runs s0))).
Proof.
  intros Hr Hmax t. split.
  - exists (handler_state F s).
    assert (Hw : wrap64 (ticks s + 1) = t).
    { apply wrap64_id. unfold int64_range in *. lia. }
    assert (He : events_since s (handler_state F s) =
                 ThreadTick :: feedback_events F (thread_mlfqs s) t ++
                   [ThreadAwake t]).
    { erewrite events_since_app by (cbn [handler_state log]; reflexivity).
      rewrite Hw. reflexivity. }
    assert (Hs : seen_since s (handler_state F s) =
                 repeat t (List.length
                             (events_since s (handler_state F s)))).
    { erewrite seen_since_app by (cbn [handler_state seen]; reflexivity).
      rewrite He, Hw. reflexivity. }
    split; [apply timer_interrupt_eq|].
    split; [exact Hw|]. split; [exact He|].
    split; [|split].
    + intros Hm. rewrite He, Hm. reflexivity.
    + intros Hm. rewrite He, Hm. reflexivity.
    + do 4 (split; [reflexivity|]).
      split; [|exact Hs].
      rewrite Hs, He. reflexivity.
  - intros o s0 Hr0.
    apply (tick_safe_delta _ (run_op F arrivals o) s0);
      [apply tick_safe_run_op|assumption].
Qed.

Lemma timer_interrupt_order_witness :
  let s := mkState 99 1024 INTR_OFF true 0 [] [] in
  int64_range (ticks s) /\ ticks s < INT64_MAX /\
  exists s',
    timer_interrupt 100 s = Ok tt s' /\
    ticks s' = 100 /\
    events_since s s' =
      [ThreadTick; MlfqsIncrement; MlfqsPriority; MlfqsLoadAvg; MlfqsRecalc;
       ThreadAwake 100] /\
    hd_error (combine (events_since s s') (seen_since s s')) =
      Some (ThreadTick, 100).
Proof.
  intros s.
  assert (H1 : int64_range (ticks s)) by (vm_compute; split; discriminate).
  assert (H2 : ticks s < INT64_MAX) by reflexivity.
  repeat (split; [assumption|]).
  destruct (proj1 (timer_interrupt_order 100 (fun _ _ => O) s H1 H2))
    as [s' [E1 [E2 [E3 [_ [_ [_ [_ [_ [_ [E4 _]]]]]]]]]]].
  exists s'. split; [exact E1|]. split; [exact E2|].
  split; [exact E3|exact E4].
Defined.

(** C8.  The counter is zero at boot.  After any operations of the driver
    it is the number of runs of the handler so far, as long as that number
    fits an int64_t, and so it never goes down from one moment to a later
    one; timer_ticks and timer_elapsed return without a change of the
    state; a run of the handler adds one; and over any operation the
    counter moves by the number of runs of the handler in it. *)
Theorem tick_counter_monotone
    (F : Z) (arrivals : state -> Z -> nat) (mlfqs : bool)
    (os1 os2 : list op) :
  let s1 := final_state (run_ops F arrivals os1 (boot mlfqs)) in
  let s2 := final_state (run_ops F arrivals (os1 ++ os2) (boot mlfqs)) in
  handler_runs s2 <= INT64_MAX ->
  ticks (boot mlfqs) = 0 /\
  ticks s1 = handler_runs s1 /\
  ticks s2 = handler_runs s2 /\
  ticks s1 <= ticks s2 /\
  (forall s, timer_ticks s = Ok (ticks s) s) /\
  (forall s then_, timer_elapsed then_ s = Ok (wrap64 (ticks s - then_)) s) /\
  (forall s, timer_interrupt F s = Ok tt (handler_state F s) /\
             ticks (handler_state F s) = wrap64 (ticks s + 1)) /\
  (forall o s,
     int64_range (ticks s) ->
     let s' := final_state (run_op F arrivals o s) in
     ticks s' = wrap64 (ticks s + (handler_runs s' - handler_runs s)) /\
     handler_runs s <= handler_runs s').
Proof.
  intros s1 s2 Hmax.
  destruct (boot_run_ops F arrivals mlfqs os1) as [E1 P1].
  destruct (boot_run_ops F arrivals mlfqs (os1 ++ os2)) as [E2 P2].
  pose proof (run_ops_prefix F arrivals os1 os2 (boot mlfqs)) as Hle.
  fold s1 in E1, P1, Hle. fold s2 in E2, P2, Hle.
  rewrite wrap64_id in E1
    by (unfold int64_range, INT64_MIN, INT64_MAX in *; lia).
  rewrite wrap64_id in E2
    by (unfold int64_range, INT64_MIN, INT64_MAX in *; lia).
  split; [reflexivity|]. split; [exact E1|]. split; [exact E2|].
  split; [lia|]. split; [apply timer_ticks_eq|].
  split; [intros; apply timer_elapsed_eq|].
  split; [intros s; split; [apply timer_interrupt_eq|reflexivity]|].
  intros o s Hr.
  apply (tick_safe_delta _ (run_op F arrivals o) s);
    [apply tick_safe_run_op|assumption].
Qed.

Lemma tick_counter_monotone_witness :
  let os1 := [Op_timer_init; Op_intr_set_level INTR_ON; Op_interrupt;
              Op_timer_ticks; Op_interrupt] in
  let os2 := [Op_timer_sleep 3; Op_interrupt; Op_timer_elapsed 1;
              Op_timer_msleep 1; Op_interrupt] in
  let s1 := final_state (run_ops 100 (fun _ _ => O) os1 (boot true)) in
  let s2 := final_state (run_ops 100 (fun _ _ => O) (os1 ++ os2) (boot true)) in
  handler_runs s2 <= INT64_MAX /\
  ticks s1 = 2 /\ ticks s2 = 4 /\ ticks s1 <= ticks s2.
Proof.
  intros os1 os2 s1 s2.
  assert (H : handler_runs s2 <= INT64_MAX) by (vm_compute; discriminate).
  split; [exact H|].
  destruct (tick_counter_monotone 100 (fun _ _ => O) true os1 os2 H)
    as [_ [E1 [E2 [Hle _]]]].
  fold s1 in E1, Hle. fold s2 in E2, Hle.
  split; [rewrite E1; reflexivity|].
  split; [rewrite E2; reflexivity|exact Hle].
Defined.

(** ** The divisor programmed by timer_init *)

Lemma pit_count_bounds F :
  19 <= F <= 1000 ->
  let c := (1193180 + F / 2) / F in
  0 <= c < 65536 /\ 2 * Z.abs (1193180 - c * F) <= F.
Proof.
  intros HF c.
  assert (Hh : 0 <= F - 2 * (F / 2) <= 1).
  { pose proof (Z.div_mod F 2). pose proof (Z.mod_pos_bound F 2). lia. }
  pose proof (Z.div_mod (1193180 + F / 2) F ltac:(lia)) as Hd.
  pose proof (Z.mod_pos_bound (1193180 + F / 2) F ltac:(lia)) as Hm.
  fold c in Hd.
  assert (0 <= c) by (apply Z.div_pos; lia).
  split; [split; [assumption|] | ]; nia.
Qed.

Lemma nearest_multiple N F c k :
  0 < F -> 2 * Z.abs (N - c * F) <= F ->
  Z.abs (N - c * F) <= Z.abs (N - k * F).
Proof.
  intros HF H.
  destruct (Z.eq_dec k c) as [->|Hne]; [lia|].
  assert (c < k \/ k < c) as [Hlt|Hlt] by lia; nia.
Qed.

(** C9.  For TIMER_FREQ in 19..1000 the count that timer_init computes,
    (1193180 + TIMER_FREQ / 2) / TIMER_FREQ, is an integer nearest to
    1193180 / TIMER_FREQ: no multiple of TIMER_FREQ is nearer to 1193180
    than count * TIMER_FREQ.  It is below 65536, so that its conversion to
    uint16_t loses nothing, and the two bytes sent to port 0x40, low byte
    first, are the count. *)
Theorem timer_init_divisor (F : Z) (s : state) :
  19 <= F <= 1000 ->
  let c := (1193180 + F / 2) / F in
  pit_count F = c /\
  0 <= c < 65536 /\
  2 * Z.abs (1193180 - c * F) <= F /\
  (forall k, Z.abs (1193180 - c * F) <= Z.abs (1193180 - k * F)) /\
  timer_init F s =
    Ok tt (add_events [Outb 0x43 0x34; Outb 0x40 (c mod 256);
                       Outb 0x40 (c / 256);
                       IntrRegisterExt 0x20 "8254 Timer"] s) /\
  0 <= c / 256 < 256 /\
  c mod 256 + 256 * (c / 256) = c.
Proof.
  intros HF c.
  destruct (pit_count_bounds F HF) as [Hc Hn]. fold c in Hc, Hn.
  assert (Hp : pit_count F = c).
  { unfold pit_count, wrap_u16.
    rewrite (Z.quot_div_nonneg F 2) by lia.
    assert (0 <= F / 2) by (apply Z.div_pos; lia).
    rewrite Z.quot_div_nonneg by lia.
    fold c. apply Z.mod_small. lia. }
  assert (Hhi : 0 <= c / 256 < 256).
  { split; [apply Z.div_pos; lia|].
    apply Z.div_lt_upper_bound; lia. }
  split; [exact Hp|]. split; [exact Hc|]. split; [exact Hn|].
  split; [intros k; apply nearest_multiple; [lia|exact Hn]|].
  split; [|split; [exact Hhi|]].
  - rewrite timer_init_eq, Hp. unfold wrap_u8.
    change 255 with (Z.ones 8).
    rewrite Z.land_ones by lia.
    rewrite Z.shiftr_div_pow2 by lia.
    change (2 ^ 8) with 256.
    rewrite Z.mod_mod by lia.
    rewrite (Z.mod_small (c / 256)) by exact Hhi.
    reflexivity.
  - pose proof (Z.div_mod c 256 ltac:(lia)). lia.
Qed.

Lemma timer_init_divisor_witness :
  19 <= 100 <= 1000 /\
  pit_count 100 = 11932 /\
  timer_init 100 (boot false) =
    Ok tt (add_events [Outb 0x43 0x34; Outb 0x40 156; Outb 0x40 46;
                       IntrRegisterExt 0x20 "8254 Timer"] (boot false)).
Proof.
  assert (H : 19 <= 100 <= 1000) by lia.
  split; [exact H|].
  destruct (timer_init_divisor 100 (boot false) H) as [E1 [_ [_ [_ [E2 _]]]]].
  split; [exact E1|exact E2].
Defined.

(** ** Calibration *)

Lemma bind_assoc A B C (m : M A) (f : A -> M B) (g : B -> M C) s :
  bind (bind m f) g s = bind m (fun a => bind (f a) g) s.
Proof. unfold bind. destruct (m s); reflexivity. Qed.

Lemma bind_ext A B (m : M A) (k1 k2 : A -> M B) s :
  (forall a s', k1 a s' = k2 a s') -> bind m k1 s = bind m k2 s.
Proof. intros H. unfold bind. destruct (m s); [apply H|reflexivity]. Qed.

Lemma shiftr_pow2 k i : 0 <= i <= k -> Z.shiftr (2 ^ k) i = 2 ^ (k - i).
Proof.
  intros H. rewrite Z.shiftr_div_pow2 by lia.
  rewrite Z.pow_sub_r by lia. reflexivity.
Qed.

Section CalibrateFacts.

Variable TIMER_FREQ : Z.
Variable arrivals : state -> Z -> nat.

(** From a power of two at or above 2^10, the for loop of timer_calibrate
    is the step for the shifts i, i + 1, ..., 9 and no other. *)
Lemma refine_loop_steps k :
  10 <= k ->
  forall r fuel i s,
    (r < fuel)%nat -> 1 <= i -> i + Z.of_nat r = 10 ->
    refine_loop TIMER_FREQ arrivals fuel (2 ^ k) (Z.shiftr (2 ^ k) i) s =
    refine_steps TIMER_FREQ arrivals (2 ^ k) (shift_range i r) s.
Proof.
  intros Hk. induction r as [|r IH]; intros fuel i s Hf Hi Hr;
    (destruct fuel as [|fuel]; [lia|]);
    cbn [refine_loop shift_range refine_steps].
  - replace i with 10 by lia. rewrite Z.eqb_refl. reflexivity.
  - assert (Hne : (Z.shiftr (2 ^ k) i =? Z.shiftr (2 ^ k) 10) = false).
    { apply Z.eqb_neq. rewrite !shiftr_pow2 by lia.
      intros E. apply Z.pow_inj_r in E; lia. }
    rewrite Hne. cbn [negb].
    unfold refine_step. rewrite bind_assoc.
    apply bind_ext. intros too_many s1.
    apply bind_ext. intros _ s2.
    rewrite Z.shiftr_shiftr by lia.
    apply IH; lia.
Qed.

Lemma refine_loop_nine k s :
  10 <= k ->
  refine_loop TIMER_FREQ arrivals 32 (2 ^ k) (Z.shiftr (2 ^ k) 1) s =
  refine_steps TIMER_FREQ arrivals (2 ^ k) [1; 2; 3; 4; 5; 6; 7; 8; 9] s.
Proof.
  intros Hk.
  change [1; 2; 3; 4; 5; 6; 7; 8; 9] with (shift_range 1 9).
  apply refine_loop_steps; [assumption|lia|lia|reflexivity].
Qed.

Lemma external_interrupt_on s :
  level s = INTR_ON ->
  external_interrupt TIMER_FREQ s = Ok tt (handler_state TIMER_FREQ s).
Proof.
  intros Hl. unfold external_interrupt, bind at 1, intr_get_level.
  rewrite Hl. unfold bind at 1, intr_set_level at 1.
  unfold bind. rewrite timer_interrupt_eq. unfold intr_set_level.
  destruct s; cbn in Hl; subst; reflexivity.
Qed.

Lemma wrap64_add_l t n : wrap64 (wrap64 t + n) = wrap64 (t + n).
Proof.
  destruct (wrap64_eq t) as [k Hk]. rewrite Hk.
  apply wrap64_congr with k. lia.
Qed.

Lemma wrap64_succ_neq t : wrap64 (t + 1) <> t.
Proof.
  unfold wrap64.
  pose proof (Z.div_mod (t + 1 + 9223372036854775808) 18446744073709551616
                ltac:(lia)).
  pose proof (Z.mod_pos_bound (t + 1 + 9223372036854775808)
                18446744073709551616 ltac:(lia)).
  lia.
Qed.

(** The counter is back at its value after [n] steps only when 2^64
    divides [n]. *)
Lemma wrap64_add_eqb t n :
  int64_range t ->
  (t =? wrap64 (t + n)) = (n mod 18446744073709551616 =? 0).
Proof.
  intros Hr.
  destruct (Z.eqb_spec (n mod 18446744073709551616) 0) as [E|E].
  - apply Z.eqb_eq. apply Z.mod_divide in E; [|lia]. destruct E as [q ->].
    rewrite <- (wrap64_id t) at 1 by assumption. symmetry.
    apply wrap64_congr with q. lia.
  - apply Z.eqb_neq. intros Heq. apply E.
    destruct (wrap64_eq (t + n)) as [k Hk].
    apply Z.mod_divide; [lia|]. exists (- k). lia.
Qed.

(** [n] interrupts, with interrupts on, are [n] runs of the handler. *)
Lemma interrupts_on n : forall s,
  level s = INTR_ON -> int64_range (ticks s) ->
  exists s',
    interrupts TIMER_FREQ n s = Ok tt s' /\
    ticks s' = wrap64 (ticks s + Z.of_nat n) /\
    loops_per_tick s' = loops_per_tick s /\ level s' = INTR_ON /\
    spins s' = spins s.
Proof.
  induction n as [|n IH]; intros s Hl Hr; cbn [interrupts].
  - exists s. unfold ret. rewrite Z.add_0_r, wrap64_id by assumption. auto.
  - unfold bind. rewrite external_interrupt_on by assumption.
    destruct (IH (handler_state TIMER_FREQ s) Hl (wrap64_range _))
      as [s' [E [Ht [Hlpt [Hlv Hsp]]]]].
    exists s'. split; [exact E|]. split; [|repeat split; assumption].
    rewrite Ht. cbn [handler_state ticks]. rewrite wrap64_add_l.
    f_equal. lia.
Qed.

Lemma wrap_u32_range z : 0 <= wrap_u32 z < 4294967296.
Proof. unfold wrap_u32. apply Z.mod_pos_bound. lia. Qed.

Lemma wrap_u32_id z : 0 <= z < 4294967296 -> wrap_u32 z = z.
Proof. intros H. unfold wrap_u32. now apply Z.mod_small. Qed.

Lemma uint32_int64 z : 0 <= z < 4294967296 -> int64_range z.
Proof. unfold int64_range, INT64_MIN, INT64_MAX. lia. Qed.

(** With interrupts on, too_many_loops waits for one tick, runs the loop
    as many times as its unsigned parameter says, and answers whether the
    counter moved meanwhile; nothing but the counter, the log and the
    count of passes has changed. *)
Lemma too_many_loops_answer loops s :
  level s = INTR_ON ->
  let u := wrap_u32 loops in
  let n := Z.of_nat (arrivals (handler_state TIMER_FREQ s) u) in
  exists s',
    too_many_loops TIMER_FREQ arrivals loops s =
      Ok (negb (n mod 18446744073709551616 =? 0)) s' /\
    loops_per_tick s' = loops_per_tick s /\ level s' = INTR_ON /\
    spins s' = spins s + u.
Proof.
  intros Hl u n. unfold too_many_loops. cbv zeta. fold u.
  assert (Hr : int64_range u) by apply uint32_int64, wrap_u32_range.
  assert (Hmax : Z.max u 0 = u) by (pose proof (wrap_u32_range loops); lia).
  unfold bind at 1, read_ticks at 1.
  unfold bind at 1. cbn [wait_for_tick].
  unfold bind at 1, read_ticks at 1. rewrite Z.eqb_refl.
  unfold bind at 1, barrier at 1, ret at 1.
  unfold bind at 1. rewrite external_interrupt_on by assumption.
  unfold bind at 1, read_ticks at 1. cbn [handler_state ticks].
  replace (wrap64 (ticks s + 1) =? ticks s) with false
    by (symmetry; apply Z.eqb_neq, wrap64_succ_neq).
  unfold ret at 1.
  set (s1 := handler_state TIMER_FREQ s).
  unfold bind at 1, read_ticks at 1.
  unfold bind at 1, arriving at 1.
  unfold bind at 1. rewrite busy_wait_eq by assumption.
  set (s2 := set_spins _ s1).
  destruct (interrupts_on (arrivals s1 u) s2 Hl (wrap64_range _))
    as [s3 [E [Ht [Hlpt [Hlv Hsp]]]]].
  unfold bind at 1. rewrite E.
  unfold bind, barrier, ret, read_ticks.
  exists s3. split; [|repeat split; try assumption].
  - rewrite Ht. do 2 f_equal. apply wrap64_add_eqb, wrap64_range.
  - rewrite Hsp. unfold s2. cbn [set_spins spins]. now rewrite Hmax.
Qed.

Lemma too_many_loops_on loops s :
  level s = INTR_ON ->
  exists b s',
    too_many_loops TIMER_FREQ arrivals loops s = Ok b s' /\
    loops_per_tick s' = loops_per_tick s /\ level s' = INTR_ON.
Proof.
  intros Hl.
  destruct (too_many_loops_answer loops s Hl) as [s' [E [H1 [H2 _]]]].
  eauto.
Qed.

Lemma wrap_u32_double j :
  10 <= j <= 31 ->
  wrap_u32 (Z.shiftl (2 ^ j) 1) = if j =? 31 then 0 else 2 ^ (j + 1).
Proof.
  intros Hj. unfold wrap_u32. rewrite Z.shiftl_mul_pow2 by lia.
  change (2 ^ 1) with 2. rewrite Z.pow_add_r by lia. change (2 ^ 1) with 2.
  destruct (Z.eqb_spec j 31) as [->|Hne]; [reflexivity|].
  apply Z.mod_small.
  assert (2 ^ j <= 2 ^ 30) by (apply Z.pow_le_mono_r; lia).
  change (2 ^ 30) with 1073741824 in *.
  pose proof (Z.pow_pos_nonneg 2 j). lia.
Qed.

(** The doubling loop, from 2^j: it returns with a power of two between
    2^j and 2^31, or stops at its ASSERT with loops_per_tick at zero; the
    bound of 32 passes is not reached. *)
Lemma doubling_loop_spec fuel : forall j s,
  level s = INTR_ON -> loops_per_tick s = 2 ^ j -> 10 <= j <= 31 ->
  32 - j <= Z.of_nat fuel ->
  match doubling_loop TIMER_FREQ arrivals fuel s with
  | Ok _ s' =>
      level s' = INTR_ON /\ exists k, j <= k <= 31 /\ loops_per_tick s' = 2 ^ k
  | Halted (AssertionFailed c) s' =>
      c = "loops_per_tick != 0"%string /\ loops_per_tick s' = 0
  | Halted _ _ => False
  end.
Proof.
  induction fuel as [|fuel IH]; intros j s Hl Hlpt Hj Hf; [lia|].
  cbn [doubling_loop].
  unfold bind at 1, read_loops_per_tick at 1. rewrite Hlpt.
  destruct (too_many_loops_on (wrap_u32 (Z.shiftl (2 ^ j) 1)) s Hl)
    as [b [s1 [E [Hlpt1 Hlv1]]]].
  unfold bind at 1. rewrite E.
  destruct b; cbn [negb].
  - unfold ret. split; [assumption|]. exists j. split; [lia|congruence].
  - unfold bind at 1, read_loops_per_tick at 1.
    unfold bind at 1, write_loops_per_tick at 1.
    unfold bind at 1, read_loops_per_tick at 1.
    cbn [set_loops_per_tick loops_per_tick].
    rewrite Hlpt1, Hlpt, wrap_u32_double by assumption.
    destruct (Z.eqb_spec j 31) as [->|Hne].
    + unfold bind, ASSERT. cbn. split; reflexivity.
    + assert (Hnz : (2 ^ (j + 1) =? 0) = false).
      { apply Z.eqb_neq. pose proof (Z.pow_pos_nonneg 2 (j + 1)). lia. }
      unfold bind at 1, ASSERT at 1. rewrite Hnz. cbn [negb].
      specialize (IH (j + 1) (set_loops_per_tick (2 ^ (j + 1)) s1)).
      cbn [set_loops_per_tick loops_per_tick level] in IH.
      specialize (IH Hlv1 eq_refl ltac:(lia) ltac:(lia)).
      destruct (doubling_loop _ _ fuel _) as [[] s'|h s'].
      * destruct IH as [Hlv' [k [Hk Hk']]]. split; [assumption|].
        exists k. split; [lia|assumption].
      * exact IH.
Qed.

Lemma lor_pow2_range k j :
  0 <= j <= k -> 0 <= Z.lor (2 ^ k) (2 ^ j) < 2 ^ (k + 1).
Proof.
  intros H.
  assert (Hk : 0 < 2 ^ k) by (apply Z.pow_pos_nonneg; lia).
  assert (Hj : 0 < 2 ^ j) by (apply Z.pow_pos_nonneg; lia).
  assert (H0 : 0 <= Z.lor (2 ^ k) (2 ^ j)) by (apply Z.lor_nonneg; lia).
  split; [assumption|].
  assert (Hnz : Z.lor (2 ^ k) (2 ^ j) <> 0).
  { intros E. apply Z.lor_eq_0_iff in E. lia. }
  apply Z.log2_lt_pow2; [lia|].
  rewrite Z.log2_lor, !Z.log2_pow2 by lia. lia.
Qed.

Lemma refined_pow2 k : 0 <= k -> refined k (2 ^ k).
Proof.
  intros Hk. split; [now apply Z.pow2_bits_true|].
  intros n Hn Hb. rewrite Z.pow2_bits_eqb in Hb by assumption.
  apply Z.eqb_eq in Hb. lia.
Qed.

Lemma refined_lor k i x :
  0 <= k -> 1 <= i <= 9 -> i <= k ->
  refined k x -> refined k (Z.lor x (2 ^ (k - i))).
Proof.
  intros Hk Hi Hik [Hb Hn]. split.
  - rewrite Z.lor_spec, Hb. reflexivity.
  - intros n Hn0 Hbit. rewrite Z.lor_spec in Hbit.
    apply orb_true_iff in Hbit. destruct Hbit as [Hbit|Hbit].
    + now apply Hn.
    + rewrite Z.pow2_bits_eqb in Hbit by lia.
      apply Z.eqb_eq in Hbit. lia.
Qed.

Lemma refine_step_spec k i s :
  10 <= k <= 31 -> 1 <= i <= 9 ->
  level s = INTR_ON -> refined k (loops_per_tick s) ->
  match refine_step TIMER_FREQ arrivals (2 ^ k) (Z.shiftr (2 ^ k) i) s with
  | Ok _ s' => level s' = INTR_ON /\ refined k (loops_per_tick s')
  | Halted _ _ => False
  end.
Proof.
  intros Hk Hi Hl Hr. unfold refine_step.
  rewrite shiftr_pow2 by lia.
  destruct (too_many_loops_on (Z.lor (2 ^ k) (2 ^ (k - i))) s Hl)
    as [b [s1 [E [Hlpt1 Hlv1]]]].
  unfold bind at 1. rewrite E.
  destruct b; cbn [negb].
  - unfold ret. split; [assumption|]. now rewrite Hlpt1.
  - unfold bind, read_loops_per_tick, write_loops_per_tick.
    cbn [set_loops_per_tick loops_per_tick level].
    split; [assumption|]. rewrite Hlpt1.
    apply refined_lor; (assumption || lia).
Qed.

Lemma refine_steps_spec k shifts : forall s,
  10 <= k <= 31 -> Forall (fun i => 1 <= i <= 9) shifts ->
  level s = INTR_ON -> refined k (loops_per_tick s) ->
  match refine_steps TIMER_FREQ arrivals (2 ^ k) shifts s with
  | Ok _ s' => level s' = INTR_ON /\ refined k (loops_per_tick s')
  | Halted _ _ => False
  end.
Proof.
  induction shifts as [|i shifts IH]; intros s Hk Hall Hl Hr;
    cbn [refine_steps].
  - unfold ret. auto.
  - inversion Hall as [|? ? Hi Hrest]; subst.
    pose proof (refine_step_spec k i s Hk Hi Hl Hr) as Hs.
    unfold bind.
    destruct (refine_step TIMER_FREQ arrivals (2 ^ k) (Z.shiftr (2 ^ k) i) s)
      as [[] s1|h s1]; [|contradiction].
    destruct Hs as [Hl1 Hr1]. now apply IH.
Qed.

(** timer_calibrate with interrupts on: it returns with loops_per_tick
    holding a leading bit between bit 10 and bit 31 and nothing more than
    nine places below it, or it stops at the ASSERT of the doubling loop
    with loops_per_tick at zero. *)
Lemma timer_calibrate_spec s :
  level s = INTR_ON ->
  match timer_calibrate TIMER_FREQ arrivals s with
  | Ok _ s' => exists k, 10 <= k <= 31 /\ refined k (loops_per_tick s')
  | Halted (AssertionFailed c) s' =>
      c = "loops_per_tick != 0"%string /\ loops_per_tick s' = 0
  | Halted _ _ => False
  end.
Proof.
  intros Hl. unfold timer_calibrate.
  unfold bind at 1, intr_get_level at 1. rewrite Hl.
  unfold bind at 1, ASSERT at 1. cbn [intr_level_eqb].
  unfold bind at 1, emit at 1.
  unfold bind at 1, write_loops_per_tick at 1.
  set (s0 := set_loops_per_tick _ _).
  assert (Hl0 : level s0 = INTR_ON) by exact Hl.
  assert (Hlpt0 : loops_per_tick s0 = 2 ^ 10) by reflexivity.
  pose proof (doubling_loop_spec 32 10 s0 Hl0 Hlpt0 ltac:(lia) ltac:(lia))
    as Hd.
  unfold bind at 1.
  destruct (doubling_loop TIMER_FREQ arrivals 32 s0) as [[] s1|h s1];
    [|exact Hd].
  destruct Hd as [Hl1 [k [Hk Hlpt1]]].
  unfold bind at 1, read_loops_per_tick at 1. rewrite Hlpt1.
  unfold bind at 1. rewrite refine_loop_nine by lia.
  assert (Hall : Forall (fun i => 1 <= i <= 9) [1; 2; 3; 4; 5; 6; 7; 8; 9])
    by (repeat constructor; lia).
  assert (Hr1 : refined k (loops_per_tick s1))
    by (rewrite Hlpt1; apply refined_pow2; lia).
  pose proof (refine_steps_spec k _ s1 ltac:(lia) Hall Hl1 Hr1) as Hs.
  destruct (refine_steps _ _ _ _ s1) as [[] s2|h s2]; [|contradiction].
  destruct Hs as [Hl2 Hr2].
  unfold bind, read_loops_per_tick, emit. cbn [add_event loops_per_tick].
  exists k. split; [lia|assumption].
Qed.

Lemma timer_calibrate_intr_off s :
  level s = INTR_OFF ->
  timer_calibrate TIMER_FREQ arrivals s =
  Halted (AssertionFailed "intr_get_level () == INTR_ON") s.
Proof.
  intros Hl. unfold timer_calibrate, bind, intr_get_level, ASSERT.
  now rewrite Hl.
Qed.

End CalibrateFacts.

(** C3, at the input where the code departs from it.  On a machine where
    1500 passes of the loop fill a tick, the doubling stops at
    high_bit = 1024, and the refinement keeps bit 1 of loops_per_tick,
    which is high_bit >> 9, the ninth bit below the leading one: the for
    loop is the step for the nine bits high_bit >> 1 down to high_bit >> 9,
    and the result is 1534 where eight bits would have given 1532. *)
Theorem timer_calibrate_refines_nine_bits :
  let s := mkState 0 0 INTR_ON false 0 [] [] in
  (exists s',
     timer_calibrate 100 (steady_machine 1500) s = Ok tt s' /\
     loops_per_tick s' = 1534 /\
     Z.land (loops_per_tick s') (Z.shiftr 1024 9) = Z.shiftr 1024 9 /\
     loops_per_tick s' =
       1024 + Z.shiftr 1024 2 + Z.shiftr 1024 3 + Z.shiftr 1024 4
       + Z.shiftr 1024 5 + Z.shiftr 1024 6 + Z.shiftr 1024 7
       + Z.shiftr 1024 8 + Z.shiftr 1024 9) /\
  (forall s0,
     refine_loop 100 (steady_machine 1500) 32 1024 (Z.shiftr 1024 1) s0 =
     refine_steps 100 (steady_machine 1500) 1024 [1; 2; 3; 4; 5; 6; 7; 8; 9]
       s0).
Proof.
  intros s. split.
  - eexists. split; [vm_compute; reflexivity|]. repeat split.
  - intros s0.
    apply (refine_loop_nine 100 (steady_machine 1500) 10 s0). lia.
Qed.

(** ** Further properties of the calibration *)

Lemma refined_bounds k x :
  9 <= k -> refined k x ->
  2 ^ k <= x < 2 ^ (k + 1) /\ x mod 2 ^ (k - 9) = 0.
Proof.
  intros Hk [Hb Hn].
  assert (Hhigh : forall m, k < m -> Z.testbit x m = false).
  { intros m Hm. destruct (Z.testbit x m) eqn:E; [|reflexivity].
    apply Hn in E; lia. }
  assert (Hpos : 0 < x).
  { destruct (Z.lt_trichotomy x 0) as [Hneg|[H0|Hp]]; [| |exact Hp].
    - apply Z.bits_iff_neg_ex in Hneg. destruct Hneg as [K HK].
      specialize (HK (Z.max K k + 1) ltac:(lia)).
      rewrite Hhigh in HK by lia. discriminate.
    - subst x. rewrite Z.bits_0 in Hb. discriminate. }
  assert (Hlog : Z.log2 x = k) by (now apply Z.log2_bits_unique).
  split.
  - pose proof (Z.log2_spec x Hpos) as Hs. rewrite Hlog in Hs.
    replace (k + 1) with (Z.succ k) by lia. exact Hs.
  - apply Z.bits_inj'. intros n Hn0.
    rewrite Z.testbit_mod_pow2, Z.bits_0 by lia.
    destruct (Z.ltb_spec n (k - 9)) as [Hlt|Hge]; [|reflexivity].
    cbn. destruct (Z.testbit x n) eqn:E; [|reflexivity].
    apply Hn in E; lia.
Qed.

Section CalibrateMore.

Variable TIMER_FREQ : Z.
Variable arrivals : state -> Z -> nat.

(** timer_calibrate with interrupts on, with the level it ends at. *)
Lemma timer_calibrate_post s :
  level s = INTR_ON ->
  match timer_calibrate TIMER_FREQ arrivals s with
  | Ok _ s' =>
      level s' = INTR_ON /\
      exists k, 10 <= k <= 31 /\ refined k (loops_per_tick s')
  | Halted (AssertionFailed c) s' =>
      c = "loops_per_tick != 0"%string /\ loops_per_tick s' = 0
  | Halted _ _ => False
  end.
Proof.
  intros Hl. unfold timer_calibrate.
  unfold bind at 1, intr_get_level at 1. rewrite Hl.
  unfold bind at 1, ASSERT at 1. cbn [intr_level_eqb].
  unfold bind at 1, emit at 1.
  unfold bind at 1, write_loops_per_tick at 1.
  set (s0 := set_loops_per_tick _ _).
  assert (Hl0 : level s0 = INTR_ON) by exact Hl.
  assert (Hlpt0 : loops_per_tick s0 = 2 ^ 10) by reflexivity.
  pose proof (doubling_loop_spec TIMER_FREQ arrivals 32 10 s0 Hl0 Hlpt0
                ltac:(lia) ltac:(lia)) as Hd.
  unfold bind at 1.
  destruct (doubling_loop TIMER_FREQ arrivals 32 s0) as [[] s1|h s1];
    [|exact Hd].
  destruct Hd as [Hl1 [k [Hk Hlpt1]]].
  unfold bind at 1, read_loops_per_tick at 1. rewrite Hlpt1.
  unfold bind at 1. rewrite refine_loop_nine by lia.
  assert (Hall : Forall (fun i => 1 <= i <= 9) [1; 2; 3; 4; 5; 6; 7; 8; 9])
    by (repeat constructor; lia).
  assert (Hr1 : refined k (loops_per_tick s1))
    by (rewrite Hlpt1; apply refined_pow2; lia).
  pose proof (refine_steps_spec TIMER_FREQ arrivals k _ s1 ltac:(lia) Hall
                Hl1 Hr1) as Hs.
  destruct (refine_steps _ _ _ _ s1) as [[] s2|h s2]; [|contradiction].
  destruct Hs as [Hl2 Hr2].
  unfold bind, read_loops_per_tick, emit.
  cbn [add_event loops_per_tick level].
  split; [assumption|]. exists k. split; [lia|assumption].
Qed.

End CalibrateMore.

(** X1.  timer_calibrate, called with interrupts on, ends in one of two
    ways, whatever the speed of the machine.  Either it returns, interrupts
    still on, and loops_per_tick = 2^k + r for some k in 10..31, with
    r < 2^k a multiple of 2^(k - 9): at least 1024, within an unsigned, and
    with nothing set more than nine bits below the leading one.  Or it
    stops at ASSERT (loops_per_tick != 0), loops_per_tick being zero.  It
    never divides by zero, hangs or runs a loop past its bound. *)
Theorem timer_calibrate_outcome
    (F : Z) (arrivals : state -> Z -> nat) (s : state) :
  level s = INTR_ON ->
  match timer_calibrate F arrivals s with
  | Ok _ s' =>
      level s' = INTR_ON /\
      exists k,
        10 <= k <= 31 /\
        2 ^ k <= loops_per_tick s' < 2 ^ (k + 1) /\
        loops_per_tick s' mod 2 ^ (k - 9) = 0 /\
        1024 <= loops_per_tick s' <= UINT32_MAX
  | Halted (AssertionFailed c) s' =>
      c = "loops_per_tick != 0"%string /\ loops_per_tick s' = 0
  | Halted _ _ => False
  end.
Proof.
  intros Hl. pose proof (timer_calibrate_post F arrivals s Hl) as H.
  destruct (timer_calibrate F arrivals s) as [[] s'|h s']; [|exact H].
  destruct H as [Hl' [k [Hk Hr]]]. split; [assumption|].
  exists k. destruct (refined_bounds k _ ltac:(lia) Hr) as [Hb Hm].
  split; [lia|]. split; [exact Hb|]. split; [exact Hm|].
  assert (2 ^ 10 <= 2 ^ k) by (apply Z.pow_le_mono_r; lia).
  assert (2 ^ (k + 1) <= 2 ^ 32) by (apply Z.pow_le_mono_r; lia).
  change (2 ^ 10) with 1024 in *. change (2 ^ 32) with 4294967296 in *.
  unfold UINT32_MAX. lia.
Qed.

Lemma timer_calibrate_outcome_witness :
  let s := mkState 0 0 INTR_ON false 0 [] [] in
  level s = INTR_ON /\
  exists s',
    timer_calibrate 100 (steady_machine 1500) s = Ok tt s' /\
    level s' = INTR_ON /\
    exists k,
      10 <= k <= 31 /\
      2 ^ k <= loops_per_tick s' < 2 ^ (k + 1) /\
      loops_per_tick s' mod 2 ^ (k - 9) = 0 /\
      1024 <= loops_per_tick s' <= UINT32_MAX.
Proof.
  intros s.
  assert (H : level s = INTR_ON) by reflexivity.
  split; [exact H|].
  pose proof (timer_calibrate_outcome 100 (steady_machine 1500) s H) as P.
  let v := eval vm_compute in
             (final_state (timer_calibrate 100 (steady_machine 1500) s)) in
  assert (H3 : timer_calibrate 100 (steady_machine 1500) s = Ok tt v)
    by (vm_compute; reflexivity);
  rewrite H3 in P; exists v; split; [exact H3|exact P].
Defined.

Section CalibrateSteady.

Variable TIMER_FREQ : Z.

Lemma too_many_loops_ticks (arrivals : state -> Z -> nat) loops s :
  level s = INTR_ON ->
  let u := wrap_u32 loops in
  let n := Z.of_nat (arrivals (handler_state TIMER_FREQ s) u) in
  exists s',
    too_many_loops TIMER_FREQ arrivals loops s =
      Ok (negb (n mod 18446744073709551616 =? 0)) s' /\
    ticks s' = wrap64 (ticks s + 1 + n) /\
    loops_per_tick s' = loops_per_tick s /\ level s' = INTR_ON /\
    spins s' = spins s + u.
Proof.
  intros Hl u n. unfold too_many_loops. cbv zeta. fold u.
  assert (Hr : int64_range u) by apply uint32_int64, wrap_u32_range.
  assert (Hmax : Z.max u 0 = u) by (pose proof (wrap_u32_range loops); lia).
  unfold bind at 1, read_ticks at 1.
  unfold bind at 1. cbn [wait_for_tick].
  unfold bind at 1, read_ticks at 1. rewrite Z.eqb_refl.
  unfold bind at 1, barrier at 1, ret at 1.
  unfold bind at 1. rewrite external_interrupt_on by assumption.
  unfold bind at 1, read_ticks at 1. cbn [handler_state ticks].
  replace (wrap64 (ticks s + 1) =? ticks s) with false
    by (symmetry; apply Z.eqb_neq, wrap64_succ_neq).
  unfold ret at 1.
  set (s1 := handler_state TIMER_FREQ s).
  unfold bind at 1, read_ticks at 1.
  unfold bind at 1, arriving at 1.
  unfold bind at 1. rewrite busy_wait_eq by assumption.
  set (s2 := set_spins _ s1).
  destruct (interrupts_on TIMER_FREQ (arrivals s1 u) s2 Hl
              (wrap64_range _)) as [s3 [E [Ht [Hlpt [Hlv Hsp]]]]].
  unfold bind at 1. rewrite E.
  unfold bind, barrier, ret, read_ticks.
  exists s3. split; [|split; [|repeat split; try assumption]].
  - rewrite Ht. do 2 f_equal. apply wrap64_add_eqb, wrap64_range.
  - rewrite Ht. cbn [s2 s1 set_spins handler_state ticks].
    now rewrite wrap64_add_l.
  - rewrite Hsp. unfold s2. cbn [set_spins spins]. now rewrite Hmax.
Qed.

(** On a steady machine the answer of too_many_loops is whether the loops
    asked for fill a tick. *)
Lemma too_many_loops_steady p loops s :
  1 <= p -> level s = INTR_ON -> 0 <= loops < 4294967296 ->
  exists s',
    too_many_loops TIMER_FREQ (steady_machine p) loops s =
      Ok (p <=? loops) s' /\
    loops_per_tick s' = loops_per_tick s /\ level s' = INTR_ON.
Proof.
  intros Hp Hl Hr.
  destruct (too_many_loops_answer TIMER_FREQ (steady_machine p) loops s Hl)
    as [s' [E [H1 [H2 _]]]].
  exists s'. split; [|split; assumption].
  rewrite E, (wrap_u32_id loops) by assumption.
  f_equal. unfold steady_machine.
  assert (Hq : 0 <= loops / p <= loops).
  { split; [apply Z.div_pos; lia|].
    apply Z.div_le_upper_bound; [lia|nia]. }
  rewrite Z2Nat.id by lia.
  rewrite Z.mod_small by lia.
  destruct (Z.leb_spec p loops) as [Hle|Hlt].
  - apply negb_true_iff, Z.eqb_neq. intros E0.
    apply Z.div_small_iff in E0; lia.
  - apply negb_false_iff, Z.eqb_eq. apply Z.div_small. lia.
Qed.

Lemma doubling_loop_steady p fuel : forall j s,
  1 <= p <= 2147483648 ->
  level s = INTR_ON -> loops_per_tick s = 2 ^ j -> 10 <= j <= 30 ->
  j = 10 \/ 2 ^ j < p ->
  31 - j <= Z.of_nat fuel ->
  match doubling_loop TIMER_FREQ (steady_machine p) fuel s with
  | Ok _ s' =>
      level s' = INTR_ON /\
      exists k, 10 <= k <= 30 /\ loops_per_tick s' = 2 ^ k /\
                p <= 2 ^ (k + 1) /\ (k = 10 \/ 2 ^ k < p)
  | Halted _ _ => False
  end.
Proof.
  induction fuel as [|fuel IH]; intros j s Hp Hl Hlpt Hj Hlow Hf; [lia|].
  cbn [doubling_loop].
  unfold bind at 1, read_loops_per_tick at 1. rewrite Hlpt.
  rewrite wrap_u32_double by lia.
  replace (j =? 31) with false by (symmetry; apply Z.eqb_neq; lia).
  assert (Hpow : 0 < 2 ^ (j + 1) <= 2147483648).
  { split; [apply Z.pow_pos_nonneg; lia|].
    change 2147483648 with (2 ^ 31). apply Z.pow_le_mono_r; lia. }
  destruct (too_many_loops_steady p (2 ^ (j + 1)) s ltac:(lia) Hl ltac:(lia))
    as [s1 [E [Hlpt1 Hlv1]]].
  unfold bind at 1. rewrite E.
  destruct (Z.leb_spec p (2 ^ (j + 1))) as [Hle|Hlt]; cbn [negb].
  - unfold ret. split; [assumption|]. exists j.
    split; [lia|]. split; [congruence|]. split; assumption.
  - unfold bind at 1, read_loops_per_tick at 1.
    unfold bind at 1, write_loops_per_tick at 1.
    unfold bind at 1, read_loops_per_tick at 1.
    cbn [set_loops_per_tick loops_per_tick].
    rewrite Hlpt1, Hlpt, wrap_u32_double by lia.
    replace (j =? 31) with false by (symmetry; apply Z.eqb_neq; lia).
    assert (Hnz : (2 ^ (j + 1) =? 0) = false) by (apply Z.eqb_neq; lia).
    unfold bind at 1, ASSERT at 1. rewrite Hnz. cbn [negb].
    assert (Hj' : j + 1 <= 30).
    { destruct (Z.le_gt_cases (j + 1) 30) as [H|H]; [exact H|].
      assert (2 ^ 31 <= 2 ^ (j + 1)) by (apply Z.pow_le_mono_r; lia).
      change (2 ^ 31) with 2147483648 in *. lia. }
    specialize (IH (j + 1) (set_loops_per_tick (2 ^ (j + 1)) s1)).
    cbn [set_loops_per_tick loops_per_tick level] in IH.
    exact (IH Hp Hlv1 eq_refl ltac:(lia) ltac:(right; lia) ltac:(lia)).
Qed.

(** With no interrupt ever coming in during a measured wait, the doubling
    runs loops_per_tick up to zero and stops at its ASSERT. *)
Lemma doubling_loop_no_arrivals (arrivals : state -> Z -> nat) fuel :
  (forall s loops, arrivals s loops = O) ->
  forall j s,
    level s = INTR_ON -> loops_per_tick s = 2 ^ j -> 10 <= j <= 31 ->
    32 - j <= Z.of_nat fuel ->
    exists s',
      doubling_loop TIMER_FREQ arrivals fuel s =
        Halted (AssertionFailed "loops_per_tick != 0") s' /\
      loops_per_tick s' = 0.
Proof.
  intros Harr. induction fuel as [|fuel IH]; intros j s Hl Hlpt Hj Hf; [lia|].
  cbn [doubling_loop].
  unfold bind at 1, read_loops_per_tick at 1. rewrite Hlpt.
  destruct (too_many_loops_answer TIMER_FREQ arrivals
              (wrap_u32 (Z.shiftl (2 ^ j) 1)) s Hl)
    as [s1 [E [Hlpt1 [Hlv1 _]]]].
  rewrite Harr in E.
  change (negb (Z.of_nat 0 mod 18446744073709551616 =? 0)) with false in E.
  unfold bind at 1. rewrite E. cbn [negb].
  unfold bind at 1, read_loops_per_tick at 1.
  unfold bind at 1, write_loops_per_tick at 1.
  unfold bind at 1, read_loops_per_tick at 1.
  cbn [set_loops_per_tick loops_per_tick].
  rewrite Hlpt1, Hlpt, wrap_u32_double by assumption.
  destruct (Z.eqb_spec j 31) as [->|Hne].
  - unfold bind, ASSERT. cbn. eexists. split; reflexivity.
  - assert (Hnz : (2 ^ (j + 1) =? 0) = false).
    { apply Z.eqb_neq. pose proof (Z.pow_pos_nonneg 2 (j + 1)). lia. }
    unfold bind at 1, ASSERT at 1. rewrite Hnz. cbn [negb].
    apply (IH (j + 1) (set_loops_per_tick (2 ^ (j + 1)) s1));
      (assumption || reflexivity || lia).
Qed.

End CalibrateSteady.

(** timer_calibrate past its ASSERT: the two loops and the report, from
    loops_per_tick at 2^10. *)
Lemma timer_calibrate_unfold F arrivals s :
  level s = INTR_ON ->
  timer_calibrate F arrivals s =
  (doubling_loop F arrivals 32 ;;
   high_bit <- read_loops_per_tick ;;
   refine_loop F arrivals 32 high_bit (Z.shiftr high_bit 1) ;;
   lpt <- read_loops_per_tick ;;
   emit (Printf "loops/s." (Some ((lpt * F) mod 18446744073709551616))))
    (set_loops_per_tick 1024
       (add_event (Printf "Calibrating timer...  " None) s)).
Proof.
  intros Hl. unfold timer_calibrate.
  unfold bind at 1, intr_get_level at 1. rewrite Hl.
  unfold bind at 1, ASSERT at 1. cbn [intr_level_eqb].
  unfold bind at 1, emit at 1.
  unfold bind at 1, write_loops_per_tick at 1.
  reflexivity.
Qed.

(** X2.  Whatever the machine answers, from a high_bit 2^k with k >= 10 the
    for loop of timer_calibrate makes exactly nine passes, for
    test_bit = high_bit >> 1, high_bit >> 2, ..., high_bit >> 9 in this
    order, each one probing high_bit | test_bit; ten units of the model's
    bound are enough for it. *)
Theorem refine_loop_probes
    (F : Z) (arrivals : state -> Z -> nat) (k : Z) (fuel : nat) (s : state) :
  10 <= k -> (10 <= fuel)%nat ->
  refine_loop F arrivals fuel (2 ^ k) (Z.shiftr (2 ^ k) 1) s =
  refine_steps F arrivals (2 ^ k) [1; 2; 3; 4; 5; 6; 7; 8; 9] s.
Proof.
  intros Hk Hf.
  change [1; 2; 3; 4; 5; 6; 7; 8; 9] with (shift_range 1 9).
  apply refine_loop_steps; [assumption|lia|lia|reflexivity].
Qed.

Lemma refine_loop_probes_witness :
  10 <= 12 /\ (10 <= 10)%nat /\
  forall s,
    refine_loop 100 (steady_machine 5000) 10 (2 ^ 12) (Z.shiftr (2 ^ 12) 1) s =
    refine_steps 100 (steady_machine 5000) (2 ^ 12)
      [1; 2; 3; 4; 5; 6; 7; 8; 9] s.
Proof.
  assert (H1 : 10 <= 12) by lia.
  assert (H2 : (10 <= 10)%nat) by lia.
  repeat (split; [assumption|]).
  intros s. exact (refine_loop_probes 100 (steady_machine 5000) 12 10 s H1 H2).
Defined.

(** X3.  too_many_loops (loops), with interrupts on, for any argument:
    the parameter is an unsigned, so the argument is taken modulo 2^32,
    u = loops mod 2^32, and u = loops for an argument in 0 .. 2^32 - 1.
    The function lets one interrupt in, runs u passes of the busy-wait
    loop, and returns whether the counter moved during them, that is
    whether a number of interrupts that is not a multiple of 2^64 came in.
    The counter ends one plus that number further on; loops_per_tick and
    the interrupt level are as before. *)
Theorem too_many_loops_outcome
    (F : Z) (arrivals : state -> Z -> nat) (loops : Z) (s : state) :
  level s = INTR_ON ->
  let u := wrap_u32 loops in
  let n := Z.of_nat (arrivals (handler_state F s) u) in
  exists b s',
    too_many_loops F arrivals loops s = Ok b s' /\
    (b = true <-> n mod 18446744073709551616 <> 0) /\
    ticks s' = wrap64 (ticks s + 1 + n) /\
    spins s' = spins s + u /\
    0 <= u < 4294967296 /\
    (0 <= loops < 4294967296 -> u = loops) /\
    loops_per_tick s' = loops_per_tick s /\ level s' = INTR_ON.
Proof.
  intros Hl u n.
  destruct (too_many_loops_ticks F arrivals loops s Hl)
    as [s' [E [Ht [Hlpt [Hlv Hsp]]]]].
  fold u in E, Ht, Hsp. fold n in E, Ht.
  eexists. exists s'. split; [exact E|].
  split; [|split; [assumption|split; [assumption|]]].
  - destruct (Z.eqb_spec (n mod 18446744073709551616) 0) as [E0|E0]; cbn;
      split; intros H; congruence.
  - split; [apply wrap_u32_range|].
    split; [apply wrap_u32_id|split; assumption].
Qed.

Lemma too_many_loops_outcome_witness :
  let s := mkState 7 1024 INTR_ON false 0 [] [] in
  level s = INTR_ON /\
  too_many_loops 100 (steady_machine 1500) 2048 s =
    Ok true (mkState 9 1024 INTR_ON false 2048
               [ThreadTick; ThreadAwake 8; ThreadTick; ThreadAwake 9]
               [8; 8; 9; 9]) /\
  exists b s',
    too_many_loops 100 (steady_machine 1500) (-1) s = Ok b s' /\
    spins s' = 4294967295.
Proof.
  intros s.
  assert (H1 : level s = INTR_ON) by reflexivity.
  split; [assumption|].
  split.
  - destruct (too_many_loops_outcome 100 (steady_machine 1500) 2048 s H1)
      as [b [s' [E _]]].
    rewrite E. vm_compute in E. exact (eq_sym E).
  - destruct (too_many_loops_outcome 100 (steady_machine 1500) (-1) s H1)
      as [b [s' [E [_ [_ [Hsp _]]]]]].
    exists b, s'. split; [exact E|exact Hsp].
Defined.

(** X4.  On a machine where p passes of the loop fill a tick, with
    1 <= p <= 2^31, timer_calibrate returns, and the leading bit 2^k of
    loops_per_tick is the largest power of two below p, as the doubling
    phase means it to be: 2^k < p <= 2^(k+1); or it is 2^10, where the
    doubling starts, when p is at most 2^11. *)
Theorem timer_calibrate_steady (F p : Z) (s : state) :
  1 <= p <= 2147483648 -> level s = INTR_ON ->
  exists s' k,
    timer_calibrate F (steady_machine p) s = Ok tt s' /\
    10 <= k <= 30 /\
    2 ^ k <= loops_per_tick s' < 2 ^ (k + 1) /\
    p <= 2 ^ (k + 1) /\ (k = 10 \/ 2 ^ k < p).
Proof.
  intros Hp Hl. rewrite timer_calibrate_unfold by assumption.
  set (s0 := set_loops_per_tick 1024 _).
  assert (Hl0 : level s0 = INTR_ON) by exact Hl.
  assert (Hlpt0 : loops_per_tick s0 = 2 ^ 10) by reflexivity.
  pose proof (doubling_loop_steady F p 32 10 s0 Hp Hl0 Hlpt0 ltac:(lia)
                ltac:(left; reflexivity) ltac:(lia)) as Hd.
  unfold bind at 1.
  destruct (doubling_loop F (steady_machine p) 32 s0) as [[] s1|h s1];
    [|contradiction].
  destruct Hd as [Hl1 [k [Hk [Hlpt1 [Hup Hlow]]]]].
  unfold bind at 1, read_loops_per_tick at 1. rewrite Hlpt1.
  unfold bind at 1. rewrite refine_loop_nine by lia.
  assert (Hall : Forall (fun i => 1 <= i <= 9) [1; 2; 3; 4; 5; 6; 7; 8; 9])
    by (repeat constructor; lia).
  assert (Hr1 : refined k (loops_per_tick s1))
    by (rewrite Hlpt1; apply refined_pow2; lia).
  pose proof (refine_steps_spec F (steady_machine p) k _ s1 ltac:(lia) Hall
                Hl1 Hr1) as Hs.
  destruct (refine_steps _ _ _ _ s1) as [[] s2|h s2]; [|contradiction].
  destruct Hs as [Hl2 Hr2].
  unfold bind, read_loops_per_tick, emit.
  eexists. exists k. split; [reflexivity|].
  cbn [add_event loops_per_tick].
  split; [assumption|].
  split; [apply (refined_bounds k); [lia|assumption]|].
  split; assumption.
Qed.

Lemma timer_calibrate_steady_witness :
  let s := mkState 0 0 INTR_ON false 0 [] [] in
  1 <= 1500 <= 2147483648 /\ level s = INTR_ON /\
  exists s' k,
    timer_calibrate 100 (steady_machine 1500) s = Ok tt s' /\
    10 <= k <= 30 /\
    2 ^ k <= loops_per_tick s' < 2 ^ (k + 1) /\
    1500 <= 2 ^ (k + 1) /\ (k = 10 \/ 2 ^ k < 1500).
Proof.
  intros s.
  assert (H1 : 1 <= 1500 <= 2147483648) by lia.
  assert (H2 : level s = INTR_ON) by reflexivity.
  repeat (split; [assumption|]).
  exact (timer_calibrate_steady 100 1500 s H1 H2).
Defined.

(** X5.  When no interrupt comes in during any of the measured waits, as
    on a machine too fast for a 32-bit count, the doubling phase of
    timer_calibrate shifts loops_per_tick out to zero and the kernel stops
    at ASSERT (loops_per_tick != 0). *)
Theorem timer_calibrate_overflow
    (F : Z) (arrivals : state -> Z -> nat) (s : state) :
  (forall s0 loops, arrivals s0 loops = O) ->
  level s = INTR_ON ->
  exists s',
    timer_calibrate F arrivals s =
      Halted (AssertionFailed "loops_per_tick != 0") s' /\
    loops_per_tick s' = 0.
Proof.
  intros Harr Hl. rewrite timer_calibrate_unfold by assumption.
  set (s0 := set_loops_per_tick 1024 _).
  destruct (doubling_loop_no_arrivals F arrivals 32 Harr 10 s0 Hl eq_refl
              ltac:(lia) ltac:(lia)) as [s' [E Hz]].
  exists s'. unfold bind at 1. rewrite E. split; [reflexivity|exact Hz].
Qed.

Lemma timer_calibrate_overflow_witness :
  let s := mkState 0 0 INTR_ON false 0 [] [] in
  (forall (s0 : state) (loops : Z), (fun _ _ => O) s0 loops = O) /\
  level s = INTR_ON /\
  exists s',
    timer_calibrate 100 (fun _ _ => O) s =
      Halted (AssertionFailed "loops_per_tick != 0") s' /\
    loops_per_tick s' = 0.
Proof.
  intros s.
  assert (H1 : forall (s0 : state) (loops : Z),
             (fun (_ : state) (_ : Z) => O) s0 loops = O)
    by (intros; reflexivity).
  assert (H2 : level s = INTR_ON) by reflexivity.
  repeat (split; [assumption|]).
  exact (timer_calibrate_overflow 100 (fun _ _ => O) s H1 H2).
Defined.

(** ** Further properties of the sleep entry points *)

Lemma real_time_sleep_returns F num denom s :
  level s = INTR_ON -> 0 < denom -> Z.rem denom 1000 = 0 ->
  exists s', real_time_sleep F num denom s = Ok tt s' /\ slept s s'.
Proof.
  intros Hl Hd Hrem.
  destruct (Z.ltb_spec 0 (Z.quot (wrap64 (num * F)) denom)) as [Ht|Ht].
  - rewrite real_time_sleep_full_tick, timer_sleep_eq by assumption.
    eexists. split; [reflexivity|]. left. eexists. reflexivity.
  - rewrite real_time_sleep_sub_tick by assumption.
    assert (Hq : 0 < Z.quot denom 1000) by (now apply rem_1000_quot).
    rewrite busy_wait_eq by (now apply sub_tick_loops_range).
    eexists. split; [reflexivity|]. right. eexists.
    split; [|reflexivity]. lia.
Qed.

(** X6.  With interrupts off, timer_msleep, timer_usleep and timer_nsleep
    stop at ASSERT (intr_get_level () == INTR_ON) for every argument,
    before any call of thread_sleep and before any pass of the busy-wait
    loop: the state is as it was. *)
Theorem sleep_units_interrupts_off (F n : Z) (s : state) :
  level s = INTR_OFF ->
  timer_msleep F n s =
    Halted (AssertionFailed "intr_get_level () == INTR_ON") s /\
  timer_usleep F n s =
    Halted (AssertionFailed "intr_get_level () == INTR_ON") s /\
  timer_nsleep F n s =
    Halted (AssertionFailed "intr_get_level () == INTR_ON") s.
Proof.
  intros Hl. unfold timer_msleep, timer_usleep, timer_nsleep.
  repeat split; apply real_time_sleep_intr_off; (assumption || lia).
Qed.

Lemma sleep_units_interrupts_off_witness :
  let s := mkState 10 1024 INTR_OFF true 0 [] [] in
  level s = INTR_OFF /\
  timer_msleep 100 2500 s =
    Halted (AssertionFailed "intr_get_level () == INTR_ON") s /\
  timer_usleep 100 (-3) s =
    Halted (AssertionFailed "intr_get_level () == INTR_ON") s /\
  timer_nsleep 100 0 s =
    Halted (AssertionFailed "intr_get_level () == INTR_ON") s.
Proof.
  intros s.
  assert (H : level s = INTR_OFF) by reflexivity.
  split; [exact H|].
  split; [exact (proj1 (sleep_units_interrupts_off 100 2500 s H))|].
  split; [exact (proj1 (proj2 (sleep_units_interrupts_off 100 (-3) s H)))|].
  exact (proj2 (proj2 (sleep_units_interrupts_off 100 0 s H))).
Defined.

(** X7.  With interrupts on, timer_msleep, timer_usleep and timer_nsleep
    return for every argument and every TIMER_FREQ, overflowing products
    included: no ASSERT fails and no division traps.  What they leave
    behind is one call of thread_sleep or some passes of the busy-wait
    loop, never both, and nothing else. *)
Theorem sleep_units_return (F n : Z) (s : state) :
  level s = INTR_ON ->
  (exists s', timer_msleep F n s = Ok tt s' /\ slept s s') /\
  (exists s', timer_usleep F n s = Ok tt s' /\ slept s s') /\
  (exists s', timer_nsleep F n s = Ok tt s' /\ slept s s').
Proof.
  intros Hl. unfold timer_msleep, timer_usleep, timer_nsleep.
  repeat split; apply real_time_sleep_returns;
    (assumption || reflexivity || lia).
Qed.

Lemma sleep_units_return_witness :
  let s := mkState 10 2000 INTR_ON true 0 [] [] in
  level s = INTR_ON /\
  (exists s', timer_msleep 100 9223372036854775807 s = Ok tt s' /\
              slept s s') /\
  (exists s', timer_usleep 100 5000 s = Ok tt s' /\ slept s s').
Proof.
  intros s.
  assert (H : level s = INTR_ON) by reflexivity.
  split; [exact H|].
  split; [exact (proj1 (sleep_units_return 100 9223372036854775807 s H))|].
  exact (proj1 (proj2 (sleep_units_return 100 5000 s H))).
Defined.

(** X8.  The number of passes of a request of less than a tick, against
    loops_per_tick: with num >= 0, num * TIMER_FREQ / denom = 0 and denom
    a positive multiple of 1000, real_time_sleep returns after a number of
    passes of the busy-wait loop that is at most loops_per_tick, and below
    it once loops_per_tick is positive.  This bounds the count of passes by
    the calibrated count, not the time they take. *)
Theorem sub_tick_passes_below_loops_per_tick (F num denom : Z) (s : state) :
  19 <= F <= 1000 ->
  uint32_range (loops_per_tick s) ->
  int32_range denom -> 0 < denom -> Z.rem denom 1000 = 0 ->
  0 <= num -> Z.quot (num * F) denom = 0 ->
  level s = INTR_ON ->
  exists passes,
    real_time_sleep F num denom s =
      Ok tt (set_spins (spins s + passes) s) /\
    0 <= passes <= loops_per_tick s /\
    (0 < loops_per_tick s -> passes < loops_per_tick s).
Proof.
  intros HF Hlpt Hd32 Hd Hrem Hnum Hq Hl.
  assert (Hd' : 0 < denom <= INT32_MAX) by (unfold int32_range in Hd32; lia).
  pose proof (quot_nonneg (num * F) denom ltac:(nia) Hd) as [_ Hb].
  rewrite Hq in Hb.
  assert (Ho : int64_range (num * F)).
  { unfold int64_range, INT64_MIN, INT64_MAX, INT32_MAX in *. lia. }
  assert (Hp : int64_range (loops_per_tick s * num))
    by (now apply (sub_tick_product_range F _ num denom)).
  assert (Hdq : 0 < Z.quot denom 1000) by (now apply rem_1000_quot).
  assert (Hden : denom = 1000 * Z.quot denom 1000).
  { pose proof (Z.quot_rem' denom 1000) as H. rewrite Hrem in H. lia. }
  set (L := loops_per_tick s) in *.
  assert (HL : 0 <= L) by (unfold uint32_range in Hlpt; lia).
  pose proof (quot_nonneg (L * num) 1000 ltac:(nia) ltac:(lia)) as [Ha1 Ha2].
  set (a := Z.quot (L * num) 1000) in *.
  pose proof (quot_nonneg (a * F) (Z.quot denom 1000) ltac:(nia) Hdq)
    as [Hn1 Hn2].
  set (d := Z.quot denom 1000) in *.
  set (n := Z.quot (a * F) d) in *.
  exists n.
  assert (Hloops : sub_tick_loops F L num denom = n)
    by (now apply sub_tick_loops_no_overflow).
  split.
  - rewrite real_time_sleep_sub_tick; try assumption.
    + fold L. rewrite Hloops.
      rewrite busy_wait_eq
        by (rewrite <- Hloops; now apply sub_tick_loops_range).
      do 2 f_equal. lia.
    + rewrite wrap64_id, Hq by assumption. lia.
  - assert (Hkey : 1000 * (n * d) <= L * (num * F)) by nia.
    destruct (Z.eq_dec L 0) as [HL0|HL0].
    + assert (n * d <= 0) by nia.
      assert (n = 0) by nia. lia.
    + assert (HLd : L * (num * F) < L * (1000 * d)) by nia.
      assert (n < L) by nia. lia.
Qed.

Lemma sub_tick_passes_below_loops_per_tick_witness :
  let s := mkState 10 1534 INTR_ON false 0 [] [] in
  19 <= 100 <= 1000 /\ uint32_range (loops_per_tick s) /\
  int32_range 1000000 /\ 0 < 1000000 /\ Z.rem 1000000 1000 = 0 /\
  0 <= 9999 /\ Z.quot (9999 * 100) 1000000 = 0 /\ level s = INTR_ON /\
  exists passes,
    real_time_sleep 100 9999 1000000 s =
      Ok tt (set_spins (spins s + passes) s) /\
    0 <= passes <= loops_per_tick s /\
    (0 < loops_per_tick s -> passes < loops_per_tick s).
Proof.
  intros s.
  assert (H1 : 19 <= 100 <= 1000) by lia.
  assert (H2 : uint32_range (loops_per_tick s))
    by (vm_compute; split; discriminate).
  assert (H3 : int32_range 1000000) by (vm_compute; split; discriminate).
  assert (H4 : 0 < 1000000) by reflexivity.
  assert (H5 : Z.rem 1000000 1000 = 0) by reflexivity.
  assert (H6 : 0 <= 9999) by (vm_compute; discriminate).
  assert (H7 : Z.quot (9999 * 100) 1000000 = 0) by reflexivity.
  assert (H8 : level s = INTR_ON) by reflexivity.
  repeat (split; [assumption|]).
  exact (sub_tick_passes_below_loops_per_tick 100 9999 1000000 s
           H1 H2 H3 H4 H5 H6 H7 H8).
Defined.

(** X9.  After timer_calibrate has returned, timer_msleep (1) at a tick
    rate of 19 to 999 Hz returns after loops_per_tick / 1000 * TIMER_FREQ
    passes of the busy-wait loop, the division rounding down before the
    multiplication: that is at least TIMER_FREQ passes, and 1000 times it
    is at most loops_per_tick * TIMER_FREQ.  The passes are counted
    against the calibrated loops_per_tick, not against the time they
    take. *)
Theorem calibrated_millisecond
    (F : Z) (arrivals : state -> Z -> nat) (s s1 : state) :
  19 <= F < 1000 -> level s = INTR_ON ->
  timer_calibrate F arrivals s = Ok tt s1 ->
  let passes := Z.quot (loops_per_tick s1) 1000 * F in
  timer_msleep F 1 s1 = Ok tt (set_spins (spins s1 + passes) s1) /\
  F <= passes /\ 1000 * passes <= loops_per_tick s1 * F.
Proof.
  intros HF Hl Hc passes.
  pose proof (timer_calibrate_post F arrivals s Hl) as H.
  rewrite Hc in H. destruct H as [Hl1 [k [Hk Hr]]].
  destruct (refined_bounds k _ ltac:(lia) Hr) as [Hb _].
  assert (H10 : 2 ^ 10 <= 2 ^ k) by (apply Z.pow_le_mono_r; lia).
  assert (H32 : 2 ^ (k + 1) <= 2 ^ 32) by (apply Z.pow_le_mono_r; lia).
  change (2 ^ 10) with 1024 in H10. change (2 ^ 32) with 4294967296 in H32.
  set (L := loops_per_tick s1) in *.
  pose proof (quot_nonneg L 1000 ltac:(lia) ltac:(lia)) as [Hq1 Hq2].
  assert (Hq3 : 1 <= Z.quot L 1000) by lia.
  assert (Ht : Z.quot (wrap64 (1 * F)) 1000 <= 0).
  { rewrite wrap64_id
      by (unfold int64_range, INT64_MIN, INT64_MAX; lia).
    rewrite Z.mul_1_l, Z.quot_small by lia. lia. }
  assert (Hloops : sub_tick_loops F L 1 1000 = passes).
  { rewrite sub_tick_loops_no_overflow
      by (unfold int64_range, INT64_MIN, INT64_MAX; lia).
    change (Z.quot 1000 1000) with 1.
    rewrite Z.mul_1_r, Z.quot_1_r. reflexivity. }
  split; [|split].
  - unfold timer_msleep.
    rewrite real_time_sleep_sub_tick; try assumption; try reflexivity.
    fold L. rewrite Hloops.
    rewrite busy_wait_eq
      by (unfold passes, int64_range, INT64_MIN, INT64_MAX; nia).
    do 2 f_equal. unfold passes. nia.
  - unfold passes. nia.
  - unfold passes. nia.
Qed.

Lemma calibrated_millisecond_witness :
  let s := mkState 0 0 INTR_ON false 0 [] [] in
  19 <= 100 < 1000 /\ level s = INTR_ON /\
  exists s1,
    timer_calibrate 100 (steady_machine 1500) s = Ok tt s1 /\
    timer_msleep 100 1 s1 =
      Ok tt
        (set_spins (spins s1 + Z.quot (loops_per_tick s1) 1000 * 100) s1).
Proof.
  intros s.
  assert (H1 : 19 <= 100 < 1000) by lia.
  assert (H2 : level s = INTR_ON) by reflexivity.
  split; [exact H1|]. split; [exact H2|].
  let v := eval vm_compute in
             (final_state (timer_calibrate 100 (steady_machine 1500) s)) in
  assert (H3 : timer_calibrate 100 (steady_machine 1500) s = Ok tt v)
    by (vm_compute; reflexivity);
  exists v; split; [exact H3|];
  exact (proj1 (calibrated_millisecond 100 (steady_machine 1500) s v
                  H1 H2 H3)).
Defined.

(** ** Further properties of the tick counter and the handler *)

Section HandlerMore.

Variable TIMER_FREQ : Z.






End HandlerMore.

(** X10.  timer_elapsed (t), for a t that timer_ticks returned k runs of
    the handler earlier, returns k, short of the counter's overflow;
    called at once, it returns 0. *)
Theorem timer_elapsed_counts_ticks (F : Z) (k : nat) (s : state) :
  0 <= ticks s -> ticks s + Z.of_nat k <= INT64_MAX ->
  (exists s',
     (then_ <- timer_ticks ;; run_ticks F k ;; timer_elapsed then_) s =
       Ok (Z.of_nat k) s' /\
     ticks s' = ticks s + Z.of_nat k) /\
  (then_ <- timer_ticks ;; timer_elapsed then_) s = Ok 0 s.
Proof.
  intros H0 Hk.
  assert (Hr : int64_range (ticks s))
    by (unfold int64_range, INT64_MIN, INT64_MAX in *; lia).
  split.
  - unfold bind at 1. rewrite timer_ticks_eq.
    unfold bind at 1. rewrite run_ticks_eq by assumption.
    rewrite timer_elapsed_eq. cbn [ticks].
    replace (ticks s + Z.of_nat k - ticks s) with (Z.of_nat k) by lia.
    rewrite wrap64_id
      by (unfold int64_range, INT64_MIN, INT64_MAX in *; lia).
    eexists. split; reflexivity.
  - unfold bind. rewrite timer_ticks_eq, timer_elapsed_eq.
    f_equal. rewrite Z.sub_diag. reflexivity.
Qed.

Lemma timer_elapsed_counts_ticks_witness :
  let s := mkState 41 1024 INTR_ON true 0 [] [] in
  0 <= ticks s /\ ticks s + Z.of_nat 7 <= INT64_MAX /\
  exists s',
    (then_ <- timer_ticks ;; run_ticks 100 7 ;; timer_elapsed then_) s =
      Ok (Z.of_nat 7) s' /\
    ticks s' = ticks s + Z.of_nat 7.
Proof.
  intros s.
  assert (H1 : 0 <= ticks s) by (vm_compute; discriminate).
  assert (H2 : ticks s + Z.of_nat 7 <= INT64_MAX)
    by (vm_compute; discriminate).
  repeat (split; [assumption|]).
  exact (proj1 (timer_elapsed_counts_ticks 100 7 s H1 H2)).
Defined.



Lemma both_divide_lcm F t :
  0 < F -> (t mod 4 = 0 /\ t mod F = 0) <-> t mod Z.lcm 4 F = 0.
Proof.
  intros HF.
  assert (HL : Z.lcm 4 F <> 0).
  { intros E. apply Z.lcm_eq_0 in E. lia. }
  rewrite !Z.mod_divide by lia. symmetry. apply Z.lcm_divide_iff.
Qed.

Lemma count_load_avg_tick_lcm F t :
  0 < F ->
  count_event MlfqsLoadAvg (tick_events F true t) =
  if t mod Z.lcm 4 F =? 0 then 1%nat else 0%nat.
Proof.
  intros HF. pose proof (both_divide_lcm F t HF) as Hb.
  unfold tick_events, feedback_events, cadence_events.
  rewrite !rem_eqb_mod by lia.
  destruct (Z.eqb_spec (t mod 4) 0); destruct (Z.eqb_spec (t mod F) 0);
    destruct (Z.eqb_spec (t mod Z.lcm 4 F) 0);
    try reflexivity; exfalso; tauto.
Qed.

Lemma count_recalc_tick_lcm F t :
  0 < F ->
  count_event MlfqsRecalc (tick_events F true t) =
  if t mod Z.lcm 4 F =? 0 then 1%nat else 0%nat.
Proof.
  intros HF. pose proof (both_divide_lcm F t HF) as Hb.
  unfold tick_events, feedback_events, cadence_events.
  rewrite !rem_eqb_mod by lia.
  destruct (Z.eqb_spec (t mod 4) 0); destruct (Z.eqb_spec (t mod F) 0);
    destruct (Z.eqb_spec (t mod Z.lcm 4 F) 0);
    try reflexivity; exfalso; tauto.
Qed.

(** X12.  At any TIMER_FREQ, under thread_mlfqs, the handler calls
    mlfqs_load_avg and mlfqs_recalc at the ticks that both 4 and
    TIMER_FREQ divide, the test on TIMER_FREQ being made only after the
    test on 4 has passed, and then always after mlfqs_priority: once each
    in any lcm (4, TIMER_FREQ) runs in a row. *)
Theorem load_avg_every_lcm (F : Z) (s : state) :
  19 <= F <= 1000 ->
  thread_mlfqs s = true ->
  int64_range (ticks s) -> ticks s + Z.lcm 4 F <= INT64_MAX ->
  exists s1 s2,
    timer_interrupt F s = Ok tt s1 /\
    (In MlfqsLoadAvg (events_since s s1) <->
     ticks s1 mod 4 = 0 /\ ticks s1 mod F = 0) /\
    (In MlfqsLoadAvg (events_since s s1) ->
     exists pre post,
       events_since s s1 =
         pre ++ [MlfqsPriority; MlfqsLoadAvg; MlfqsRecalc] ++ post) /\
    run_ticks F (Z.to_nat (Z.lcm 4 F)) s = Ok tt s2 /\
    count_event MlfqsLoadAvg (events_since s s2) = 1%nat /\
    count_event MlfqsRecalc (events_since s s2) = 1%nat.
Proof.
  intros HF Hm Hr Hmax.
  assert (HL0 : 0 <= Z.lcm 4 F) by apply Z.lcm_nonneg.
  assert (HL : 0 < Z.lcm 4 F).
  { assert (Z.lcm 4 F <> 0) by (intros E; apply Z.lcm_eq_0 in E; lia). lia. }
  assert (Hw : wrap64 (ticks s + 1) = ticks s + 1).
  { apply wrap64_id. unfold int64_range in *. lia. }
  assert (Ht : ticks (handler_state F s) = ticks s + 1) by exact Hw.
  assert (He : events_since s (handler_state F s) =
               ThreadTick :: MlfqsIncrement ::
                 cadence_events F (ticks s + 1) ++ [ThreadAwake (ticks s + 1)]).
  { erewrite events_since_app by (cbn [handler_state log]; reflexivity).
    rewrite Hm, Hw. reflexivity. }
  exists (handler_state F s). eexists.
  split; [apply timer_interrupt_eq|].
  rewrite He, Ht.
  assert (Hin : In MlfqsLoadAvg
                  (ThreadTick :: MlfqsIncrement ::
                     cadence_events F (ticks s + 1) ++
                     [ThreadAwake (ticks s + 1)]) <->
                In MlfqsLoadAvg (cadence_events F (ticks s + 1))).
  { cbn. rewrite in_app_iff. cbn. intuition congruence. }
  split; [|split; [|split]].
  - rewrite Hin. apply in_cadence_events_load_avg. lia.
  - intros H. apply Hin in H. unfold cadence_events in *.
    destruct (Z.rem (ticks s + 1) 4 =? 0); [|contradiction].
    destruct (Z.rem (ticks s + 1) F =? 0).
    + exists [ThreadTick; MlfqsIncrement], [ThreadAwake (ticks s + 1)].
      reflexivity.
    + cbn in H. intuition discriminate.
  - apply run_ticks_eq; [assumption|]. rewrite Z2Nat.id by lia. lia.
  - erewrite !(events_since_app s (mkState _ _ _ _ _ _ _))
      by (cbn [log]; reflexivity).
    rewrite Hm. split; apply Nat2Z.inj.
    + rewrite (count_window F MlfqsLoadAvg (Z.lcm 4 F) true);
        [|lia|intros t; apply count_load_avg_tick_lcm; lia].
      rewrite Z2Nat.id by lia.
      replace (ticks s + Z.lcm 4 F) with (ticks s + 1 * Z.lcm 4 F) by lia.
      rewrite Z.div_add by lia. lia.
    + rewrite (count_window F MlfqsRecalc (Z.lcm 4 F) true);
        [|lia|intros t; apply count_recalc_tick_lcm; lia].
      rewrite Z2Nat.id by lia.
      replace (ticks s + Z.lcm 4 F) with (ticks s + 1 * Z.lcm 4 F) by lia.
      rewrite Z.div_add by lia. lia.
Qed.

Lemma load_avg_every_lcm_witness :
  let s := mkState 30 1024 INTR_OFF true 0 [] [] in
  19 <= 50 <= 1000 /\ thread_mlfqs s = true /\ int64_range (ticks s) /\
  ticks s + Z.lcm 4 50 <= INT64_MAX /\
  exists s2,
    run_ticks 50 (Z.to_nat (Z.lcm 4 50)) s = Ok tt s2 /\
    count_event MlfqsLoadAvg (events_since s s2) = 1%nat /\
    count_event MlfqsRecalc (events_since s s2) = 1%nat.
Proof.
  intros s.
  assert (H1 : 19 <= 50 <= 1000) by lia.
  assert (H2 : thread_mlfqs s = true) by reflexivity.
  assert (H3 : int64_range (ticks s)) by (vm_compute; split; discriminate).
  assert (H4 : ticks s + Z.lcm 4 50 <= INT64_MAX)
    by (vm_compute; discriminate).
  split; [exact H1|]. split; [exact H2|]. split; [exact H3|].
  split; [exact H4|].
  destruct (load_avg_every_lcm 50 s H1 H2 H3 H4)
    as [s1 [s2 [_ [_ [_ [E [C1 C2]]]]]]].
  exists s2. split; [exact E|]. split; [exact C1|exact C2].
Defined.

(** ** What the operations leave alone *)

Lemma keeps_ret X A (f : state -> X) (a : A) : keeps f (ret a).
Proof. intros s. reflexivity. Qed.

Lemma keeps_bind X A B (f : state -> X) (m : M A) (k : A -> M B) :
  keeps f m -> (forall a, keeps f (k a)) -> keeps f (bind m k).
Proof.
  intros Hm Hk s. unfold bind. specialize (Hm s).
  destruct (m s) as [a s1|h s1]; cbn [final_state] in *.
  - rewrite Hk. exact Hm.
  - exact Hm.
Qed.

Lemma keeps_ASSERT X (f : state -> X) c t : keeps f (ASSERT c t).
Proof. intros s. unfold ASSERT. destruct c; reflexivity. Qed.

Lemma keeps_div64 X (f : state -> X) a b : keeps f (div64 a b).
Proof.
  intros s. unfold div64.
  destruct ((b =? 0) || (a =? INT64_MIN) && (b =? -1)); reflexivity.
Qed.

Lemma keeps_halted X A (f : state -> X) h :
  keeps f (fun s => @Halted A h s).
Proof. intros s. reflexivity. Qed.

Lemma keeps_timer_ticks X (f : state -> X) : keeps f timer_ticks.
Proof. intros s. now rewrite timer_ticks_eq. Qed.

(** Takes a computation apart along its binds and branches; the steps
    that only read the state, or write another part of it, are closed by
    computation. *)
Ltac keeps_steps :=
  repeat first
    [ assumption
    | apply keeps_timer_ticks
    | apply keeps_ASSERT
    | apply keeps_div64
    | apply keeps_halted
    | apply keeps_bind; [|intros ?]
    | match goal with
      | |- keeps _ (if ?c then _ else _) => destruct c
      | |- keeps _ (match ?l with INTR_OFF => _ | INTR_ON => _ end) =>
          destruct l
      end
    | solve [intros ?; reflexivity]
    | solve [intros ?; unfold emit, write_loops_per_tick, spin;
             cbn [final_state]; auto ] ].

Section Frame.

Variable TIMER_FREQ : Z.
Variable arrivals : state -> Z -> nat.
Variables (X : Type) (f : state -> X).
Hypothesis f_spin : forall s, f (set_spins (spins s + 1) s) = f s.
Hypothesis f_event : forall e s, f (add_event e s) = f s.

Lemma keeps_busy_wait_loop fuel :
  forall loops, keeps f (busy_wait_loop fuel loops).
Proof.
  induction fuel as [|fuel IH]; intros loops;
    cbn [busy_wait_loop]; cbv zeta; [keeps_steps|].
  destruct (0 <? loops); [|keeps_steps].
  apply keeps_bind; [keeps_steps|intros _].
  apply keeps_bind; [keeps_steps|intros _]. apply IH.
Qed.

Lemma keeps_timer_sleep n : keeps f (timer_sleep n).
Proof. unfold timer_sleep. keeps_steps. Qed.

Lemma keeps_real_time_sleep num denom :
  keeps f (real_time_sleep TIMER_FREQ num denom).
Proof.
  unfold real_time_sleep.
  apply keeps_bind; [keeps_steps|intros t].
  apply keeps_bind; [keeps_steps|intros lvl].
  apply keeps_bind; [keeps_steps|intros _].
  destruct (0 <? t); [apply keeps_timer_sleep|].
  apply keeps_bind; [keeps_steps|intros _].
  apply keeps_bind; [keeps_steps|intros lpt].
  apply keeps_bind; [keeps_steps|intros a].
  apply keeps_bind; [keeps_steps|intros b].
  apply keeps_busy_wait_loop.
Qed.

Lemma keeps_timer_init : keeps f (timer_init TIMER_FREQ).
Proof. unfold timer_init. cbv zeta. keeps_steps. Qed.

Lemma keeps_timer_print_stats : keeps f timer_print_stats.
Proof. unfold timer_print_stats. keeps_steps. Qed.

Lemma keeps_timer_elapsed then_ : keeps f (timer_elapsed then_).
Proof. unfold timer_elapsed. keeps_steps. Qed.

(** What the interrupt keeps, the calibration keeps, as long as it
    is not loops_per_tick. *)
Hypothesis f_interrupt : keeps f (external_interrupt TIMER_FREQ).
Hypothesis f_lpt : forall n s, f (set_loops_per_tick n s) = f s.

Lemma keeps_interrupts n : keeps f (interrupts TIMER_FREQ n).
Proof.
  induction n as [|n IH]; cbn [interrupts]; keeps_steps.
Qed.

Lemma keeps_wait_for_tick fuel start :
  keeps f (wait_for_tick TIMER_FREQ fuel start).
Proof.
  induction fuel as [|fuel IH]; cbn [wait_for_tick]; keeps_steps.
Qed.

Lemma keeps_too_many_loops loops :
  keeps f (too_many_loops TIMER_FREQ arrivals loops).
Proof.
  unfold too_many_loops.
  apply keeps_bind; [keeps_steps|intros start0].
  apply keeps_bind; [apply keeps_wait_for_tick|intros _].
  apply keeps_bind; [keeps_steps|intros start].
  apply keeps_bind; [keeps_steps|intros n].
  apply keeps_bind; [apply keeps_busy_wait_loop|intros _].
  apply keeps_bind; [apply keeps_interrupts|intros _].
  keeps_steps.
Qed.

Lemma keeps_doubling_loop fuel :
  keeps f (doubling_loop TIMER_FREQ arrivals fuel).
Proof.
  induction fuel as [|fuel IH]; cbn [doubling_loop]; [keeps_steps|].
  apply keeps_bind; [keeps_steps|intros lpt].
  apply keeps_bind; [apply keeps_too_many_loops|intros b].
  destruct (negb b); keeps_steps.
Qed.

Lemma keeps_refine_loop fuel high_bit :
  forall test_bit,
    keeps f (refine_loop TIMER_FREQ arrivals fuel high_bit test_bit).
Proof.
  induction fuel as [|fuel IH]; intros test_bit; cbn [refine_loop];
    [keeps_steps|].
  destruct (negb (test_bit =? Z.shiftr high_bit 10)); [|keeps_steps].
  apply keeps_bind; [apply keeps_too_many_loops|intros b].
  apply keeps_bind; [|intros _; apply IH].
  destruct (negb b); keeps_steps.
Qed.

Lemma keeps_timer_calibrate :
  keeps f (timer_calibrate TIMER_FREQ arrivals).
Proof.
  unfold timer_calibrate.
  apply keeps_bind; [keeps_steps|intros lvl].
  apply keeps_bind; [keeps_steps|intros _].
  apply keeps_bind; [keeps_steps|intros _].
  apply keeps_bind; [keeps_steps|intros _].
  apply keeps_bind; [apply keeps_doubling_loop|intros _].
  apply keeps_bind; [keeps_steps|intros hb].
  apply keeps_bind; [apply keeps_refine_loop|intros _].
  keeps_steps.
Qed.

End Frame.

Lemma level_external_interrupt F : keeps level (external_interrupt F).
Proof.
  intros s. destruct (level s) eqn:Hl.
  - unfold external_interrupt, bind, intr_get_level. rewrite Hl. exact Hl.
  - rewrite external_interrupt_on by assumption. exact Hl.
Qed.

Lemma keeps_external_interrupt X (f : state -> X) F :
  (forall s, f (handler_state F s) = f s) ->
  (forall l s, f (set_level l s) = f s) ->
  keeps f (external_interrupt F).
Proof.
  intros Hh Hl s. destruct (level s) eqn:E.
  - unfold external_interrupt, bind, intr_get_level. now rewrite E.
  - rewrite external_interrupt_on by assumption. apply Hh.
Qed.

(** X13.  What the operations of the driver leave alone, whether they
    return or stop the kernel.  Each function of the file ends at the
    interrupt level it was called at, timer_ticks putting back the level
    it turned off and the handler being entered and left at one level;
    loops_per_tick is written by timer_calibrate and by nothing else;
    thread_mlfqs is never written. *)
Theorem operations_frame
    (F : Z) (arrivals : state -> Z -> nat) (o : op) (s : state) :
  let s' := final_state (run_op F arrivals o s) in
  thread_mlfqs s' = thread_mlfqs s /\
  match o with
  | Op_intr_set_level l => level s' = l
  | _ => level s' = level s
  end /\
  match o with
  | Op_timer_calibrate => True
  | _ => loops_per_tick s' = loops_per_tick s
  end.
Proof.
  cbv zeta.
  assert (Hm : keeps thread_mlfqs (external_interrupt F))
    by (apply keeps_external_interrupt; intros; reflexivity).
  assert (Hl : keeps loops_per_tick (external_interrupt F))
    by (apply keeps_external_interrupt; intros; reflexivity).
  pose proof (level_external_interrupt F) as Hv.
  destruct o; cbn [run_op]; unfold timer_msleep, timer_usleep, timer_nsleep.
  - repeat split; apply keeps_timer_init; intros; reflexivity.
  - repeat split; apply keeps_timer_calibrate;
      (assumption || (intros; reflexivity)).
  - repeat split; (apply keeps_bind; [apply keeps_timer_ticks|intros ?]);
      apply keeps_ret.
  - repeat split;
      (apply keeps_bind; [apply keeps_timer_elapsed|intros ?]);
      apply keeps_ret.
  - repeat split; apply keeps_timer_sleep; intros; reflexivity.
  - repeat split; apply keeps_real_time_sleep; intros; reflexivity.
  - repeat split; apply keeps_real_time_sleep; intros; reflexivity.
  - repeat split; apply keeps_real_time_sleep; intros; reflexivity.
  - repeat split; apply keeps_timer_print_stats; intros; reflexivity.
  - repeat split; [apply Hm|apply Hv|apply Hl].
  - repeat split.
Qed.

(** X14.  A request of a tick or more, num >= 0 with
    num * TIMER_FREQ >= denom >= 1000 and no overflow, is rounded down to whole
    ticks: real_time_sleep makes the one call thread_sleep (c + t), where
    t >= 1 and t * denom <= num * TIMER_FREQ < (t + 1) * denom; it does
    not busy-wait for what is left over. *)
Theorem full_tick_sleep_rounds_down (F num denom : Z) (s : state) :
  19 <= F <= 1000 ->
  0 <= num -> int64_range (num * F) ->
  1000 <= denom -> denom <= num * F ->
  level s = INTR_ON ->
  int64_range (ticks s + Z.quot (num * F) denom) ->
  let t := Z.quot (num * F) denom in
  real_time_sleep F num denom s =
    Ok tt (add_events [ThreadSleep (ticks s + t)] s) /\
  1 <= t <= num /\
  t * denom <= num * F < (t + 1) * denom.
Proof.
  intros HF Hnum Ho Hd1000 Hge Hl Hw t.
  assert (Hd : 0 < denom) by lia.
  pose proof (quot_nonneg (num * F) denom ltac:(lia) Hd) as [Hq1 Hq2].
  fold t in Hq1, Hq2, Hw.
  assert (Ht : 1 <= t) by nia.
  split; [|split; [|lia]].
  - rewrite real_time_sleep_full_tick; try assumption.
    + rewrite (wrap64_id (num * F)) by assumption. fold t.
      rewrite timer_sleep_eq, wrap64_id by assumption. reflexivity.
    + rewrite wrap64_id by assumption. fold t. lia.
  - split; [exact Ht|]. nia.
Qed.

Lemma full_tick_sleep_rounds_down_witness :
  let s := mkState 10 2000 INTR_ON false 0 [] [] in
  19 <= 100 <= 1000 /\ 0 <= 1234 /\ int64_range (1234 * 100) /\
  1000 <= 1000 /\ 1000 <= 1234 * 100 /\ level s = INTR_ON /\
  int64_range (ticks s + Z.quot (1234 * 100) 1000) /\
  real_time_sleep 100 1234 1000 s = Ok tt (add_events [ThreadSleep 133] s).
Proof.
  intros s.
  assert (H1 : 19 <= 100 <= 1000) by lia.
  assert (H2 : 0 <= 1234) by lia.
  assert (H3 : int64_range (1234 * 100)) by (vm_compute; split; discriminate).
  assert (H4 : 1000 <= 1000) by lia.
  assert (H5 : 1000 <= 1234 * 100) by lia.
  assert (H6 : level s = INTR_ON) by reflexivity.
  assert (H7 : int64_range (ticks s + Z.quot (1234 * 100) 1000))
    by (vm_compute; split; discriminate).
  repeat (split; [assumption|]).
  exact (proj1 (full_tick_sleep_rounds_down 100 1234 1000 s
                  H1 H2 H3 H4 H5 H6 H7)).
Defined.


(** No operation but timer_calibrate writes loops_per_tick. *)
Lemma run_op_keeps_loops_per_tick F arrivals o s :
  o = Op_timer_calibrate \/
  loops_per_tick (final_state (run_op F arrivals o s)) = loops_per_tick s.
Proof.
  assert (Hl : keeps loops_per_tick (external_interrupt F))
    by (apply keeps_external_interrupt; intros; reflexivity).
  destruct o; [| left; reflexivity | | | | | | | | |]; right; cbn [run_op];
    unfold timer_msleep, timer_usleep, timer_nsleep.
  - apply keeps_timer_init; intros; reflexivity.
  - apply keeps_bind; [apply keeps_timer_ticks|intros ?]; apply keeps_ret.
  - apply keeps_bind; [apply keeps_timer_elapsed|intros ?]; apply keeps_ret.
  - apply keeps_timer_sleep; intros; reflexivity.
  - apply keeps_real_time_sleep; intros; reflexivity.
  - apply keeps_real_time_sleep; intros; reflexivity.
  - apply keeps_real_time_sleep; intros; reflexivity.
  - apply keeps_timer_print_stats; intros; reflexivity.
  - apply Hl.
  - reflexivity.
Qed.

(** X16.  Whatever the operations since boot, loops_per_tick is zero, as
    before a calibration and after one that stopped at its ASSERT, or it is
    a calibrated value between 1024 and UINT32_MAX. *)
Theorem loops_per_tick_invariant
    (F : Z) (arrivals : state -> Z -> nat) (mlfqs : bool) (os : list op) :
  let s := final_state (run_ops F arrivals os (boot mlfqs)) in
  loops_per_tick s = 0 \/ 1024 <= loops_per_tick s <= UINT32_MAX.
Proof.
  cbv zeta.
  set (I := fun s => loops_per_tick s = 0 \/
                     1024 <= loops_per_tick s <= UINT32_MAX).
  assert (Hop : forall o s, I s -> I (final_state (run_op F arrivals o s))).
  { intros o s Hs.
    destruct (run_op_keeps_loops_per_tick F arrivals o s) as [Hc|Hk].
    - subst o. cbn [run_op]. destruct (level s) eqn:Hl.
      + rewrite timer_calibrate_intr_off by assumption. exact Hs.
      + pose proof (timer_calibrate_post F arrivals s Hl) as P.
        destruct (timer_calibrate F arrivals s) as [[] s'|h s'];
          cbn [final_state].
        * destruct P as [_ [k [Hk Hr]]].
          destruct (refined_bounds k _ ltac:(lia) Hr) as [Hb _].
          assert (2 ^ 10 <= 2 ^ k) by (apply Z.pow_le_mono_r; lia).
          assert (2 ^ (k + 1) <= 2 ^ 32) by (apply Z.pow_le_mono_r; lia).
          change (2 ^ 10) with 1024 in *.
          change (2 ^ 32) with 4294967296 in *.
          right. unfold UINT32_MAX. lia.
        * destruct h; try contradiction. left. apply P.
    - unfold I. rewrite Hk. exact Hs. }
  assert (Hall : forall os s, I s ->
                   I (final_state (run_ops F arrivals os s))).
  { intros os0. induction os0 as [|o os0 IH]; intros s Hs; [exact Hs|].
    cbn [run_ops]. unfold bind.
    pose proof (Hop o s Hs) as H1.
    destruct (run_op F arrivals o s) as [[] s1|h s1]; cbn [final_state] in *.
    - now apply IH.
    - exact H1. }
  apply Hall. left. reflexivity.
Qed.
